(** * train.py: dataset windowing, learning-rate schedule and training loop

    A shallow embedding of [train.py].  Python integers are [Z], Python
    lists are [list], Python [str] is [string].  Python floats (losses,
    learning rates) are idealised as real numbers [R]; the schedule is
    given a second time over binary64 (module [F64]) to see where rounding
    matters.  Exceptions are values of [exn], and code that may raise lives
    in the [result] monad. *)

From Stdlib Require Import ZArith String Ascii Reals Lra Lia Floats.
From stdpp Require Import base list strings.

Local Open Scope Z_scope.
Set Warnings "-register-all,-inexact-float".

(** ** Exceptions and the error monad *)

Inductive exn : Type :=
| ValueError (msg : string)
| IndexError
| KeyError (key : string)
| TypeError
| JSONDecodeError
| ZeroDivisionError.

Inductive result (A : Type) : Type :=
| Ok (a : A)
| Raise (e : exn).
Arguments Ok {A} a.
Arguments Raise {A} e.

#[global] Instance result_ret : MRet result := fun A a => Ok a.
#[global] Instance result_bind : MBind result := fun A B f m =>
  match m with
  | Ok a => f a
  | Raise e => Raise e
  end.

(** Monadic left fold: a [for] loop whose body may raise. *)
Fixpoint foldM {A B : Type} (f : A -> B -> result A) (a : A) (bs : list B)
  : result A :=
  match bs with
  | [] => Ok a
  | b :: bs' => a' ← f a b; foldM f a' bs'
  end.

(** List comprehension whose element expression may raise. *)
Fixpoint forM {A B : Type} (f : A -> result B) (xs : list A) : result (list B) :=
  match xs with
  | [] => Ok []
  | x :: xs' => y ← f x; ys ← forM f xs'; Ok (y :: ys)
  end.

(** ** The Python built-ins the script uses *)

Module Py.

Definition len {A : Type} (xs : list A) : Z := Z.of_nat (length xs).

(** [range(start, stop, step)]: CPython computes the length once and
    yields [start + k * step]. *)
Definition range_length (start stop step : Z) : Z :=
  if 0 <? step then
    if start <? stop then (stop - start - 1) / step + 1 else 0
  else
    if stop <? start then (start - stop - 1) / (- step) + 1 else 0.

Definition range (start stop step : Z) : result (list Z) :=
  if step =? 0 then Raise (ValueError "range() arg 3 must not be zero")
  else Ok (map (fun k : nat => start + Z.of_nat k * step)
               (seq 0 (Z.to_nat (range_length start stop step)))).

(** Slice bounds: a negative bound counts from the end, and every bound
    is clamped to [0, len]. *)
Definition clamp (n k : Z) : Z :=
  if k <? 0 then Z.max 0 (k + n) else Z.min k n.

(** [xs[i:j]] *)
Definition slice {A : Type} (xs : list A) (i j : Z) : list A :=
  let lo := clamp (len xs) i in
  let hi := clamp (len xs) j in
  take (Z.to_nat (hi - lo)) (drop (Z.to_nat lo) xs).

(** [xs[i:]] *)
Definition slice_from {A : Type} (xs : list A) (i : Z) : list A :=
  drop (Z.to_nat (clamp (len xs) i)) xs.

(** Position addressed by a subscript, when it is in range. *)
Definition index {A : Type} (xs : list A) (k : Z) : option nat :=
  let k' := if k <? 0 then k + len xs else k in
  if (0 <=? k') && (k' <? len xs) then Some (Z.to_nat k') else None.

(** [xs[k]] *)
Definition getitem {A : Type} (xs : list A) (k : Z) : result A :=
  match index xs k with
  | Some p =>
      match xs !! p with
      | Some x => Ok x
      | None => Raise IndexError
      end
  | None => Raise IndexError
  end.

(** [xs[k] = v] *)
Definition setitem {A : Type} (xs : list A) (k : Z) (v : A) : result (list A) :=
  match index xs k with
  | Some p => Ok (<[p := v]> xs)
  | None => Raise IndexError
  end.

(** [xs * k]: [k] copies of [xs], none when [k <= 0]. *)
Definition mul {A : Type} (xs : list A) (k : Z) : list A :=
  mjoin (replicate (Z.to_nat k) xs).

(** [enumerate(xs, start)]; [start] defaults to 0. *)
Fixpoint enumerate_from {A : Type} (start : Z) (xs : list A) : list (Z * A) :=
  match xs with
  | [] => []
  | x :: xs' => (start, x) :: enumerate_from (start + 1) xs'
  end.

Definition enumerate {A : Type} (xs : list A) : list (Z * A) :=
  enumerate_from 0 xs.

(** [float / int]: raises on a zero divisor. *)
Definition truediv (x : R) (n : Z) : result R :=
  if n =? 0 then Raise ZeroDivisionError else Ok (x / IZR n)%R.

End Py.

(** ** JSON values, as [json.loads] returns them *)

Inductive json : Type :=
| JNull
| JBool (b : bool)
| JInt (z : Z)
| JFloat (x : R)
| JString (s : string)
| JArray (items : list json)
| JObject (fields : list (string * json)).

Fixpoint dict_get (fields : list (string * json)) (key : string) : option json :=
  match fields with
  | [] => None
  | (k, v) :: rest => if String.eqb k key then Some v else dict_get rest key
  end.

(** [v[key]] with a string key: only a dict accepts it. *)
Definition subscript (v : json) (key : string) : result json :=
  match v with
  | JObject fields =>
      match dict_get fields key with
      | Some x => Ok x
      | None => Raise (KeyError key)
      end
  | _ => Raise TypeError
  end.

(** [sep.join(items)] with [sep = ""]: every item must be a [str]. *)
Definition as_str (v : json) : result string :=
  match v with
  | JString s => Ok s
  | _ => Raise TypeError
  end.

Definition join (items : list json) : result string :=
  strs ← forM as_str items; Ok (String.concat "" strs).

(** ** External collaborators

    The tokenizer, the JSON parser, the transformer and the data loaders
    are libraries with fixed contracts; the script only calls them. *)

Record Tokenizer : Type := {
  encode : string -> list Z;
  vocab_size : Z
}.

Class Text : Type := {
  strip : string -> string;               (* str.strip *)
  json_loads : string -> option json;     (* json.loads; None: JSONDecodeError *)
  Tokenizer_new : Tokenizer               (* Tokenizer() *)
}.

(** ** GutenbergPoetryDataset *)

Record GutenbergPoetryDataset : Type := {
  data : list (list Z);
  labels : list (list Z)
}.

(** Lines 18-19: one record per line of the file, its field ["s"]. *)
Definition read_records `{Text} (file : list string) : result (list json) :=
  forM (fun line =>
          match json_loads (strip line) with
          | Some v => subscript v "s"
          | None => Raise JSONDecodeError
          end) file.

(** Line 20: join, then encode. *)
Definition flat_tokens `{Text} (tokenizer : Tokenizer) (file : list string)
  : result (list Z) :=
  recs ← read_records file;
  text ← join recs;
  Ok (encode tokenizer text).

(** Line 21: [self.data[1:] + [0]]. *)
Definition shift_labels (flat : list Z) : list Z :=
  Py.slice_from flat 1 ++ [0].

(** Lines 23-30: [[xs[i : min(i + seq_len, len(xs))]
                   for i in range(0, len(xs), seq_len)]]. *)
Definition split_sequences (xs : list Z) (seq_len : Z) : result (list (list Z)) :=
  starts ← Py.range 0 (Py.len xs) seq_len;
  Ok (map (fun i => Py.slice xs i (Z.min (i + seq_len) (Py.len xs))) starts).

(** Lines 32-35: pad the last sequence if necessary. *)
Definition pad_last (ws : list (list Z)) (seq_len : Z) : result (list (list Z)) :=
  w ← Py.getitem ws (-1);
  if Py.len w <? seq_len
  then Py.setitem ws (-1) (w ++ Py.mul [0] (seq_len - Py.len w))
  else Ok ws.

(** Lines 21-35, from the flat token list on. *)
Definition of_tokens (seq_len : Z) (flat : list Z) : result GutenbergPoetryDataset :=
  let labels0 := shift_labels flat in
  d ← split_sequences flat seq_len;
  l ← split_sequences labels0 seq_len;
  d' ← pad_last d seq_len;
  l' ← pad_last l seq_len;
  Ok {| data := d'; labels := l' |}.

Definition GutenbergPoetryDataset_init `{Text}
    (seq_len : Z) (tokenizer : Tokenizer) (file : list string)
  : result GutenbergPoetryDataset :=
  flat ← flat_tokens tokenizer file;
  of_tokens seq_len flat.

Definition GutenbergPoetryDataset_len (ds : GutenbergPoetryDataset) : Z :=
  Py.len (data ds).

Definition GutenbergPoetryDataset_getitem (ds : GutenbergPoetryDataset) (idx : Z)
  : result (list Z * list Z) :=
  x ← Py.getitem (data ds) idx;
  y ← Py.getitem (labels ds) idx;
  Ok (x, y).

(** [s] is the string field ["s"] of the JSON record on [line]. *)
Definition record_string `{Text} (line s : string) : Prop :=
  exists fields,
    json_loads (strip line) = Some (JObject fields) /\
    dict_get fields "s" = Some (JString s).

(** Ceiling of [a / b] for a positive [b]. *)
Definition cdiv (a b : Z) : Z := (a + b - 1) / b.


(** Window [k] of [xs] for length [L], in closed form: the tokens from
    position [k * L] on, at most [L] of them ([chunk_at]), then zeros up to
    length [L] ([window_at]).  The lemmas below show that the constructor
    builds exactly these. *)
Definition chunk_at (xs : list Z) (L k : nat) : list Z :=
  take L (drop (k * L) xs).

Definition window_at (xs : list Z) (L k : nat) : list Z :=
  chunk_at xs L k ++ replicate (L - length (chunk_at xs L k)) 0.

(** ** Command-line arguments *)

Record Args : Type := {
  train_ratio : R;
  model_type : string;
  seq_len : Z;
  device : string;
  lr : R;
  warmup_steps : Z;
  batch_size : Z;
  epochs : Z
}.

(** The defaults of [parse_args]. *)
Definition default_args : Args := {|
  train_ratio := 0.9;
  model_type := "transformer";
  seq_len := 128;
  device := "cpu";
  lr := 0.002;
  warmup_steps := 10;
  batch_size := 8;
  epochs := 1
|}.

(** ** cosine_lr_schedule (lines 47-58) *)

Definition cosine_lr_schedule (args : Args) (step max_steps : Z) : R :=
  let min_lr := Rmin (lr args / 5) 1e-4 in
  if step <? warmup_steps args then
    (IZR step / IZR (Z.max 1 (warmup_steps args)) * lr args)%R
  else
    let progress :=
      (IZR (step - warmup_steps args)
       / IZR (Z.max 1 (max_steps - warmup_steps args)))%R in
    (min_lr + 0.5 * (lr args - min_lr) * (1.0 + cos (PI * progress)))%R.

(** ** The deep-learning library, as the script uses it *)

(** A [DataLoader]: [len(dl)] batches on every pass; the batches of a pass
    depend on the pass because the loader shuffles.  The script walks each
    loader once per epoch, so passes are numbered by epoch. *)
Record DataLoader (Batch : Type) : Type := {
  dl_len : nat;
  dl_batch : Z -> nat -> Batch
}.
Arguments dl_len {Batch} _.
Arguments dl_batch {Batch} _ _ _.

Definition dl_iter {Batch : Type} (dl : DataLoader Batch) (pass : Z) : list Batch :=
  map (dl_batch dl pass) (seq 0 (dl_len dl)).

Class Torch : Type := {
  Batch : Type;      (* the tensors (X, y) of one batch *)
  Model : Type;      (* parameters together with the optimizer's moments *)
  Subset : Type;
  (* Transformer(seq_len=, vocab_size=, device=).to(device) *)
  Transformer : Z -> Z -> string -> Model;
  (* the loss of model(X, y); the flag is the train/eval mode *)
  forward : bool -> Model -> Batch -> R;
  (* loss.backward(); opt.step(); opt.zero_grad() at the given learning rate *)
  opt_step : R -> Model -> Batch -> Model;
  random_split : GutenbergPoetryDataset -> R -> R -> Subset * Subset;
  (* DataLoader(subset, batch_size=, shuffle=True) *)
  DataLoader_new : Subset -> Z -> DataLoader Batch
}.

(** One [writer.add_scalar(tag, value, global_step)]. *)
Record Scalar : Type := {
  tag : string;
  value : R;
  global_step : Z
}.

(** [torch.optim.lr_scheduler.LambdaLR]: the learning rate of the group is
    its initial learning rate times [lr_lambda(last_epoch)].  The
    constructor performs the step that sets [last_epoch = 0]. *)
Definition LambdaLR_lr (base_lr : R) (lr_lambda : Z -> R) (last_epoch : Z) : R :=
  (base_lr * lr_lambda last_epoch)%R.

Record TrainState `{Torch} : Type := {
  model : Model;
  group_lr : R;            (* opt.param_groups[0]["lr"] *)
  last_epoch : Z;          (* scheduler.last_epoch *)
  writer : list Scalar;    (* scalars written so far, oldest first *)
  applied : list R         (* learning rate of every opt.step(), oldest first *)
}.

Definition add_scalar `{Torch} (st : TrainState) (t : string) (v : R) (s : Z)
  : TrainState :=
  {| model := model st;
     group_lr := group_lr st;
     last_epoch := last_epoch st;
     writer := writer st ++ [{| tag := t; value := v; global_step := s |}];
     applied := applied st |}.

(** The values logged under a tag at a step, oldest first. *)
Fixpoint scalars (t : string) (s : Z) (log : list Scalar) : list R :=
  match log with
  | [] => []
  | sc :: rest =>
      if String.eqb (tag sc) t && (global_step sc =? s)
      then value sc :: scalars t s rest
      else scalars t s rest
  end.

(** Sum and arithmetic mean of a list of losses. *)
Definition Rsum (xs : list R) : R := fold_right Rplus 0%R xs.

Definition Rmean (xs : list R) : R := (Rsum xs / INR (length xs))%R.

Section Train.
Context `{Text} `{Torch}.
Variable args : Args.

(** Lines 74-77: [AdamW(lr=args.lr)] wrapped in [LambdaLR] with
    [lr_lambda = lambda step: cosine_lr_schedule(step, max_steps)]; the
    learning rate the scheduler gives the optimizer at [last_epoch]. *)
Definition scheduler_lr (max_steps last_epoch : Z) : R :=
  LambdaLR_lr (lr args) (fun step => cosine_lr_schedule args step max_steps)
              last_epoch.

Definition scheduler_init (m : Model) (max_steps : Z) : TrainState :=
  {| model := m;
     group_lr := scheduler_lr max_steps 0;
     last_epoch := 0;
     writer := [];
     applied := [] |}.

(** Lines 85-100: the body of the training loop; the accumulator pairs the
    state with [train_loss]. *)
Definition train_batch (train_len max_steps epoch : Z)
    (acc : TrainState * R) (item : Z * Batch) : TrainState * R :=
  let '(st, train_loss) := acc in
  let '(step, b) := item in
  let loss := forward true (model st) b in
  (* loss.backward(); opt.step(); opt.zero_grad() *)
  let m' := opt_step (group_lr st) (model st) b in
  let used := applied st ++ [group_lr st] in
  (* scheduler.step() *)
  let last' := last_epoch st + 1 in
  let lr' := scheduler_lr max_steps last' in
  let train_loss' := (train_loss + loss)%R in
  let curr_step := epoch * train_len + step in
  let st1 := {| model := m'; group_lr := lr'; last_epoch := last';
                writer := writer st; applied := used |} in
  let st2 := add_scalar st1 "Loss/train_step" loss curr_step in
  (* scheduler.get_last_lr()[0] *)
  let st3 := add_scalar st2 "Learning_rate" (group_lr st2) curr_step in
  (st3, train_loss').

(** Lines 111-114: the validation loop sums the losses. *)
Definition validate (m : Model) (batches : list Batch) : R :=
  fold_left (fun val_loss b => (val_loss + forward false m b)%R) batches 0%R.

(** Lines 80-119: one epoch.  Both divisions have an [int] divisor; in the
    second one [val_loss] is still the float [0.0] when the loader has no
    batch, so each division raises exactly when its loader is empty. *)
Definition train_epoch (train_dataloader val_dataloader : DataLoader Batch)
    (max_steps : Z) (st : TrainState) (epoch : Z) : result TrainState :=
  let train_len := Z.of_nat (dl_len train_dataloader) in
  let '(st1, train_loss) :=
    fold_left (train_batch train_len max_steps epoch)
              (Py.enumerate (dl_iter train_dataloader epoch)) (st, 0%R) in
  avg_train_loss ← Py.truediv train_loss train_len;
  let st2 := add_scalar st1 "Loss/train_epoch" avg_train_loss epoch in
  let val_loss := validate (model st2) (dl_iter val_dataloader epoch) in
  avg_val_loss ← Py.truediv val_loss (Z.of_nat (dl_len val_dataloader));
  Ok (add_scalar st2 "Loss/validation" avg_val_loss epoch).

(** Lines 63-67: the loaders built from the dataset. *)
Definition train_loader (dataset : GutenbergPoetryDataset) : DataLoader Batch :=
  DataLoader_new
    (fst (random_split dataset (train_ratio args) (1 - train_ratio args)%R))
    (batch_size args).

Definition val_loader (dataset : GutenbergPoetryDataset) : DataLoader Batch :=
  DataLoader_new
    (snd (random_split dataset (train_ratio args) (1 - train_ratio args)%R))
    (batch_size args).

(** Line 79: [for epoch in range(n_epochs)], from the state [st0]. *)
Definition epoch_loop (train_dataloader val_dataloader : DataLoader Batch)
    (max_steps : Z) (st0 : TrainState) (n_epochs : Z) : result TrainState :=
  es ← Py.range 0 n_epochs 1;
  foldM (train_epoch train_dataloader val_dataloader max_steps) st0 es.

(** Line 69. *)
Definition max_steps_of (train_dataloader : DataLoader Batch) : Z :=
  Z.of_nat (dl_len train_dataloader) * epochs args.

(** Lines 61-121.  [corpus] holds the lines of the corpus file. *)
Definition train (corpus : list string) (tokenizer : Tokenizer) (m : Model)
  : result TrainState :=
  dataset ← GutenbergPoetryDataset_init (seq_len args) tokenizer corpus;
  let train_dataloader := train_loader dataset in
  let val_dataloader := val_loader dataset in
  let max_steps := max_steps_of train_dataloader in
  let st0 := scheduler_init m max_steps in
  epoch_loop train_dataloader val_dataloader max_steps st0 (epochs args).

Definition unsupported : exn :=
  ValueError ("Model type " +:+ model_type args +:+ " not supported").

(** Lines 160-171. *)
Definition main (corpus : list string) : result TrainState :=
  let tokenizer := Tokenizer_new in
  if String.eqb (model_type args) "transformer" then
    let m := Transformer (seq_len args) (vocab_size tokenizer) (device args) in
    train corpus tokenizer m
  else Raise unsupported.

(** *** Invariants of the epoch loop

    [logged] says what the log [w] holds for epoch [e]: the per-batch
    losses under ["Loss/train_step"], their mean under
    ["Loss/train_epoch"], and under ["Loss/validation"] the summed
    validation losses of the model as it is after epoch [e], divided by
    the number of validation batches. *)
Definition logged (train_dataloader val_dataloader : DataLoader Batch)
    (max_steps : Z) (st0 : TrainState) (w : list Scalar) (e : nat) : Prop :=
  exists losses,
    length losses = dl_len train_dataloader /\
    (forall i, (i < dl_len train_dataloader)%nat ->
       scalars "Loss/train_step"
               (Z.of_nat e * Z.of_nat (dl_len train_dataloader) + Z.of_nat i) w
       = [nth i losses 0%R]) /\
    scalars "Loss/train_epoch" (Z.of_nat e) w = [Rmean losses] /\
    exists st_e,
      epoch_loop train_dataloader val_dataloader max_steps st0
                 (Z.of_nat e + 1) = Ok st_e /\
      scalars "Loss/validation" (Z.of_nat e) w
      = [(Rsum (map (forward false (model st_e))
                    (dl_iter val_dataloader (Z.of_nat e)))
          / IZR (Z.of_nat (dl_len val_dataloader)))%R].

(** The state after [k] epochs. *)
Definition after_epochs (train_dataloader val_dataloader : DataLoader Batch)
    (max_steps : Z) (st0 : TrainState) (k : nat) (st : TrainState) : Prop :=
  last_epoch st = Z.of_nat (k * dl_len train_dataloader) /\
  group_lr st = scheduler_lr max_steps (last_epoch st) /\
  applied st
  = map (fun j : nat => scheduler_lr max_steps (Z.of_nat j))
        (seq 0 (k * dl_len train_dataloader)) /\
  (forall s, Z.of_nat (k * dl_len train_dataloader) <= s ->
     scalars "Loss/train_step" s (writer st) = []) /\
  (forall e, Z.of_nat k <= e ->
     scalars "Loss/train_epoch" e (writer st) = [] /\
     scalars "Loss/validation" e (writer st) = []) /\
  (forall e, (e < k)%nat ->
     logged train_dataloader val_dataloader max_steps st0 (writer st) e).
End Train.

(** [parse_args] accepts a model type only from [choices]; argparse exits
    with status 2 otherwise.  The other flags are converted by argparse. *)
Definition model_type_choices : list string := ["transformer"].

Definition check_model_type (a : Args) : option Args :=
  if existsb (String.eqb (model_type a)) model_type_choices then Some a else None.

(** The scalars one pass over the training loader writes: for the batch
    with loss [l] at global step [curr], the loss and then the learning
    rate that [scheduler.step()] has just set. *)
Fixpoint step_entries (rate : Z -> R) (curr k : Z) (losses : list R) : list Scalar :=
  match losses with
  | [] => []
  | l :: ls =>
      {| tag := "Loss/train_step"; value := l; global_step := curr |}
      :: {| tag := "Learning_rate"; value := rate (k + 1); global_step := curr |}
      :: step_entries rate (curr + 1) (k + 1) ls
  end.

(** The errors [train] can raise. *)
Definition raised_by_train (e : exn) : Prop :=
  e = JSONDecodeError \/ e = TypeError \/ (exists k, e = KeyError k) \/
  e = ValueError "range() arg 3 must not be zero" \/
  e = IndexError \/ e = ZeroDivisionError.

(** ** cosine_lr_schedule in binary64

    The same function over IEEE 754 binary64, the arithmetic of Python's
    [float].  [math.cos] is a parameter: the platform's libm decides its
    values, and only [cos(0.0) = 1.0] is used below. *)

Module F64.

(** [float(z)]: the nearest binary64 number.  Integers beyond the binary64
    range, where Python raises [OverflowError], are outside the model. *)
Definition of_int (z : Z) : float :=
  SF2Prim (binary_normalize prec emax z 0 false).

(** [math.pi] *)
Definition pi : float := 0x1.921fb54442d18p+1%float.

(** [min(a, b)]: the first argument unless the second is smaller. *)
Definition min (a b : float) : float :=
  if PrimFloat.ltb b a then b else a.

(** [args.lr] and [args.warmup_steps] are arguments here. *)
Definition cosine_lr_schedule (cos : float -> float) (lr : float)
    (warmup_steps step max_steps : Z) : float :=
  let min_lr := min (lr / of_int 5) 1e-4 in
  if step <? warmup_steps then
    (of_int step / of_int (Z.max 1 warmup_steps) * lr)%float
  else
    let progress :=
      (of_int (step - warmup_steps)
       / of_int (Z.max 1 (max_steps - warmup_steps)))%float in
    (min_lr + 0.5 * (lr - min_lr) * (1.0 + cos (pi * progress)))%float.

End F64.

(** ** A small concrete environment

    An instance of the external collaborators on which the definitions
    above can be run: a byte-level tokenizer, a parser that reads every
    line as the string of its record, a one-parameter model and loaders
    that serve the windows in order. *)

Module Demo.

Definition is_space (a : ascii) : bool :=
  let n := nat_of_ascii a in
  (n =? 32)%nat || ((9 <=? n)%nat && (n <=? 13)%nat).

Fixpoint lstrip (s : string) : string :=
  match s with
  | String a s' => if is_space a then lstrip s' else s
  | EmptyString => EmptyString
  end.

Fixpoint rstrip (s : string) : string :=
  match s with
  | String a s' =>
      match rstrip s' with
      | EmptyString => if is_space a then EmptyString else String a EmptyString
      | t => String a t
      end
  | EmptyString => EmptyString
  end.

Definition byte_tokenizer : Tokenizer := {|
  encode := fun s =>
    map (fun a => Z.of_nat (nat_of_ascii a)) (list_ascii_of_string s);
  vocab_size := 256
|}.

#[global] Instance text : Text := {|
  strip := fun s => rstrip (lstrip s);
  json_loads := fun s => Some (JObject [("s", JString s)]);
  Tokenizer_new := byte_tokenizer
|}.

(** The last window is held out for validation; [n] samples in batches
    of [bs] make [ceil(n / bs)] batches. *)
#[global] Instance torch : Torch := {|
  Batch := nat;
  Model := R;
  Subset := nat;
  Transformer := fun _ _ _ => 0%R;
  forward := fun _ m b => (m + INR b)%R;
  opt_step := fun rate m _ => (m - rate)%R;
  random_split := fun ds _ _ => (pred (length (data ds)), 1%nat);
  DataLoader_new := fun n bs =>
    {| dl_len := Z.to_nat (cdiv (Z.of_nat n) bs);
       dl_batch := fun _ i => i |}
|}.

Definition corpus : list string :=
  ["Twas brillig, and the slithy toves"; "Did gyre and gimble in the wabe"].

(** [--seq-len 4 --batch-size 1] *)
Definition args : Args := {|
  train_ratio := 0.9;
  model_type := "transformer";
  seq_len := 4;
  device := "cpu";
  lr := 0.002;
  warmup_steps := 10;
  batch_size := 1;
  epochs := 1
|}.

End Demo.

(** ** Proof steps *)

(** Run the binds of the error monad whose first computation is known. *)
Ltac run_bind := cbn [mbind result_bind].

(** ** A second environment, with lines that fail

    The parser reads the empty line as no JSON at all, [[]] as an empty
    array, [{}] as an object without fields and [0] as a record whose
    field ["s"] is the number 0; any other line is the string of its
    record, as in [Demo]. *)

Module DemoStrict.

Definition loads (s : string) : option json :=
  if String.eqb s "" then None
  else if String.eqb s "[]" then Some (JArray [])
  else if String.eqb s "{}" then Some (JObject [])
  else if String.eqb s "0" then Some (JObject [("s", JInt 0)])
  else Some (JObject [("s", JString s)]).

Definition text : Text := {|
  strip := fun s => Demo.rstrip (Demo.lstrip s);
  json_loads := loads;
  Tokenizer_new := Demo.byte_tokenizer
|}.

End DemoStrict.
Example of_tokens_7_3 :
  of_tokens 3 [11; 12; 13; 14; 15; 16; 17]
  = Ok {| data := [[11; 12; 13]; [14; 15; 16]; [17; 0; 0]];
          labels := [[12; 13; 14]; [15; 16; 17]; [0; 0; 0]] |}.
Proof. reflexivity. Qed.

Example of_tokens_empty : of_tokens 3 [] = Raise IndexError.
Proof. reflexivity. Qed.

Example of_tokens_step0 :
  of_tokens 0 [] = Raise (ValueError "range() arg 3 must not be zero").
Proof. reflexivity. Qed.

Example range_0_7_3 : Py.range 0 7 3 = Ok [0; 3; 6].
Proof. reflexivity. Qed.

Example range_5_0_neg2 : Py.range 5 0 (-2) = Ok [5; 3; 1].
Proof. reflexivity. Qed.

Example range_empty : Py.range 0 0 3 = Ok [].
Proof. reflexivity. Qed.

Example slice_clamped : Py.slice [1; 2; 3] 1 10 = [2; 3].
Proof. reflexivity. Qed.

Example slice_negative : Py.slice [1; 2; 3] (-2) 3 = [2; 3].
Proof. reflexivity. Qed.

Example getitem_last : Py.getitem [1; 2; 3] (-1) = Ok 3.
Proof. reflexivity. Qed.

Example getitem_out_of_range : Py.getitem [1; 2; 3] 3 = Raise IndexError.
Proof. reflexivity. Qed.

Example mul_zeros : Py.mul [0] 3 = [0; 0; 0].
Proof. reflexivity. Qed.

Example of_tokens_negative_step : of_tokens (-1) [5] = Raise IndexError.
Proof. reflexivity. Qed.
(** ** Facts about the built-ins *)

Section PyFacts.
Context {A : Type}.
Implicit Types xs : list A.

Lemma len_nonneg xs : 0 <= Py.len xs.
Proof. unfold Py.len. lia. Qed.

Lemma len_app xs ys : Py.len (xs ++ ys) = Py.len xs + Py.len ys.
Proof. unfold Py.len. rewrite length_app. lia. Qed.

(** With bounds that are not negative a slice is a [take] of a [drop]. *)
Lemma slice_nat xs (i j : Z) :
  0 <= i -> 0 <= j ->
  Py.slice xs i j = take (Z.to_nat j - Z.to_nat i) (drop (Z.to_nat i) xs).
Proof.
  intros Hi Hj. unfold Py.slice, Py.clamp, Py.len.
  destruct (Z.ltb_spec i 0) as [?|_]; [lia|].
  destruct (Z.ltb_spec j 0) as [?|_]; [lia|].
  set (n := length xs).
  destruct (Z_le_gt_dec i (Z.of_nat n)) as [Hin|Hin].
  - rewrite (Z.min_l i) by lia.
    destruct (Z_le_gt_dec j (Z.of_nat n)) as [Hjn|Hjn].
    + rewrite (Z.min_l j) by lia. f_equal. lia.
    + rewrite (Z.min_r j) by lia.
      rewrite !take_ge; [done | |]; rewrite length_drop; fold n; lia.
  - rewrite (Z.min_r i) by lia.
    rewrite !(drop_ge xs); [by rewrite !take_nil | fold n; lia | fold n; lia].
Qed.

Lemma slice_from_nat xs (i : Z) :
  0 <= i -> Py.slice_from xs i = drop (Z.to_nat i) xs.
Proof.
  intros Hi. unfold Py.slice_from, Py.clamp, Py.len.
  destruct (Z.ltb_spec i 0) as [?|_]; [lia|].
  destruct (Z_le_gt_dec i (Z.of_nat (length xs))) as [Hin|Hin].
  - by rewrite Z.min_l by lia.
  - rewrite Z.min_r by lia. rewrite !drop_ge; [done | lia | lia].
Qed.

(** [xs[-1]] is the last element of a list that has one. *)
Lemma index_last xs :
  xs <> [] -> Py.index xs (-1) = Some (pred (length xs)).
Proof.
  intros Hne. unfold Py.index, Py.len.
  destruct xs as [|x xs']; [done|]. cbn [length].
  destruct (Z.ltb_spec (-1) 0) as [_|?]; [|lia].
  destruct (Z.leb_spec 0 (-1 + Z.of_nat (S (length xs')))) as [_|?]; [|lia].
  destruct (Z.ltb_spec (-1 + Z.of_nat (S (length xs'))) (Z.of_nat (S (length xs'))))
    as [_|?]; [|lia].
  cbn [andb]. f_equal. lia.
Qed.

Lemma index_nil (k : Z) : Py.index (@nil A) k = None.
Proof.
  unfold Py.index, Py.len. cbn [length].
  destruct (Z.ltb_spec k 0); rewrite ?Z.add_0_r.
  - destruct (Z.leb_spec 0 k); [lia | done].
  - destruct (Z.ltb_spec k (Z.of_nat 0)); [lia|]. by rewrite andb_false_r.
Qed.

Lemma getitem_nil (k : Z) : Py.getitem (@nil A) k = Raise IndexError.
Proof. unfold Py.getitem. by rewrite index_nil. Qed.

Lemma mul_singleton (x : A) (k : Z) : Py.mul [x] k = replicate (Z.to_nat k) x.
Proof.
  unfold Py.mul. induction (Z.to_nat k) as [|n IH]; [done|].
  simpl. f_equal. exact IH.
Qed.
End PyFacts.

Lemma cdiv_bounds (m L : Z) :
  0 < L -> cdiv m L * L - L < m <= cdiv m L * L.
Proof.
  intros HL. unfold cdiv.
  pose proof (Z.div_mod (m + L - 1) L ltac:(lia)) as Hdm.
  pose proof (Z.mod_pos_bound (m + L - 1) L HL) as Hr.
  nia.
Qed.

Lemma cdiv_0 (L : Z) : 0 < L -> cdiv 0 L = 0.
Proof. intros HL. unfold cdiv. apply Z.div_small. lia. Qed.

Lemma cdiv_pos (m L : Z) : 0 < L -> 0 < m -> 0 < cdiv m L.
Proof. intros HL Hm. pose proof (cdiv_bounds m L HL). nia. Qed.

Lemma cdiv_nonneg (m L : Z) : 0 < L -> 0 <= m -> 0 <= cdiv m L.
Proof. intros HL Hm. unfold cdiv. apply Z.div_pos; lia. Qed.

(** [range(0, m, L)] visits the multiples of [L] below [m]. *)
Lemma range_length_0 (m L : Z) :
  0 <= m -> 1 <= L -> Py.range_length 0 m L = cdiv m L.
Proof.
  intros Hm HL. unfold Py.range_length.
  destruct (Z.ltb_spec 0 L) as [_|?]; [|lia].
  destruct (Z.ltb_spec 0 m) as [Hpos|Hz].
  - unfold cdiv. replace (m - 0 - 1) with (m - 1) by lia.
    replace (m + L - 1) with (m - 1 + 1 * L) by lia.
    rewrite Z.div_add by lia. done.
  - replace m with 0 by lia. by rewrite cdiv_0 by lia.
Qed.

Lemma range_0 (m L : Z) :
  0 <= m -> 1 <= L ->
  Py.range 0 m L
  = Ok (map (fun k : nat => Z.of_nat k * L) (seq 0 (Z.to_nat (cdiv m L)))).
Proof.
  intros Hm HL. unfold Py.range.
  destruct (Z.eqb_spec L 0) as [?|_]; [lia|].
  by rewrite range_length_0.
Qed.

(** A non-positive step visits nothing when [stop] is not negative. *)
Lemma range_neg_step (m L : Z) :
  0 <= m -> L < 0 -> Py.range 0 m L = Ok [].
Proof.
  intros Hm HL. unfold Py.range, Py.range_length.
  destruct (Z.eqb_spec L 0) as [?|_]; [lia|].
  destruct (Z.ltb_spec 0 L) as [?|_]; [lia|].
  destruct (Z.ltb_spec m 0) as [?|_]; [lia|]. done.
Qed.

(** With a positive step [range] is the loop that starts at [start] and
    adds [step] while the value is below [stop]. *)
Lemma range_unfold (start stop step : Z) :
  0 < step ->
  Py.range start stop step
  = if start <? stop
    then rest ← Py.range (start + step) stop step; Ok (start :: rest)
    else Ok [].
Proof.
  intros Hstep. unfold Py.range, Py.range_length.
  destruct (Z.eqb_spec step 0) as [?|_]; [lia|].
  destruct (Z.ltb_spec 0 step) as [_|?]; [|lia].
  destruct (Z.ltb_spec start stop) as [Hlt|Hge]; [|done].
  run_bind. f_equal.
  assert ((stop - start - 1) / step + 1
          = 1 + (if start + step <? stop
                 then (stop - (start + step) - 1) / step + 1 else 0)) as ->.
  { replace (stop - start - 1) with (stop - (start + step) - 1 + 1 * step) by lia.
    rewrite Z.div_add by lia.
    destruct (Z.ltb_spec (start + step) stop) as [Hin|Hout]; [lia|].
    assert ((stop - (start + step) - 1) / step = -1) as ->; [|lia].
    symmetry. apply (Z.div_unique _ _ _ (stop - start - 1)); lia. }
  set (m := if start + step <? stop then _ else 0).
  assert (0 <= m) as Hm.
  { subst m. destruct (Z.ltb_spec (start + step) stop); [|lia].
    pose proof (Z.div_pos (stop - (start + step) - 1) step ltac:(lia) ltac:(lia)).
    lia. }
  replace (Z.to_nat (1 + m)) with (S (Z.to_nat m)) by lia.
  cbn [seq map]. f_equal; [lia|].
  rewrite <- seq_shift, map_map. apply map_ext. intros k. lia.
Qed.

(** ** Windowing *)

Lemma length_chunk_at xs L k :
  length (chunk_at xs L k) = Nat.min L (length xs - k * L).
Proof. unfold chunk_at. by rewrite length_take, length_drop. Qed.

Lemma length_window_at xs L k : length (window_at xs L k) = L.
Proof.
  unfold window_at. rewrite length_app, length_replicate, length_chunk_at. lia.
Qed.

Lemma window_at_full xs L k :
  (S k * L <= length xs)%nat -> window_at xs L k = chunk_at xs L k.
Proof.
  intros Hk. unfold window_at. rewrite length_chunk_at.
  replace (L - Nat.min L (length xs - k * L))%nat with 0%nat by lia.
  cbn [replicate]. by rewrite app_nil_r.
Qed.

Lemma lookup_window_at_lt xs L k j :
  (j < L)%nat -> (k * L + j < length xs)%nat ->
  window_at xs L k !! j = xs !! (k * L + j)%nat.
Proof.
  intros Hj Hin. unfold window_at.
  rewrite lookup_app_l by (rewrite length_chunk_at; lia).
  unfold chunk_at. rewrite lookup_take_lt by lia. by rewrite lookup_drop.
Qed.

Lemma lookup_window_at_ge xs L k j :
  (j < L)%nat -> (length xs <= k * L + j)%nat ->
  window_at xs L k !! j = Some 0.
Proof.
  intros Hj Hout. unfold window_at.
  rewrite lookup_app_r by (rewrite length_chunk_at; lia).
  apply lookup_replicate_2. rewrite length_chunk_at. lia.
Qed.

Lemma split_sequences_ok (xs : list Z) (L : Z) :
  1 <= L ->
  split_sequences xs L
  = Ok (map (chunk_at xs (Z.to_nat L))
            (seq 0 (Z.to_nat (cdiv (Py.len xs) L)))).
Proof.
  intros HL. unfold split_sequences.
  rewrite range_0 by (auto using len_nonneg). cbn.
  f_equal. rewrite map_map. apply map_ext_in. intros k Hk.
  apply in_seq in Hk.
  pose proof (cdiv_bounds (Py.len xs) L ltac:(lia)) as Hc.
  pose proof (len_nonneg xs) as Hn.
  assert (Z.of_nat k * L < Py.len xs) as Hlt by nia.
  rewrite slice_nat by nia.
  unfold chunk_at.
  replace (Z.to_nat (Z.of_nat k * L)) with (k * Z.to_nat L)%nat by nia.
  unfold Py.len in *.
  destruct (Z_le_gt_dec (Z.of_nat k * L + L) (Z.of_nat (length xs))) as [Hfit|Hcut].
  - rewrite Z.min_l by lia. f_equal. nia.
  - rewrite Z.min_r by lia.
    rewrite !take_ge; [done | |]; rewrite length_drop; nia.
Qed.

Lemma split_sequences_step0 (xs : list Z) :
  split_sequences xs 0 = Raise (ValueError "range() arg 3 must not be zero").
Proof. reflexivity. Qed.

Lemma split_sequences_neg (xs : list Z) (L : Z) :
  L < 0 -> split_sequences xs L = Ok [].
Proof.
  intros HL. unfold split_sequences.
  by rewrite range_neg_step by (auto using len_nonneg).
Qed.

Lemma pad_last_nil (L : Z) : pad_last [] L = Raise IndexError.
Proof. reflexivity. Qed.

(** Padding the chunks of [xs] gives its windows. *)
Lemma pad_last_chunks (xs : list Z) (L : Z) :
  1 <= L -> xs <> [] ->
  pad_last (map (chunk_at xs (Z.to_nat L))
                (seq 0 (Z.to_nat (cdiv (Py.len xs) L)))) L
  = Ok (map (window_at xs (Z.to_nat L))
            (seq 0 (Z.to_nat (cdiv (Py.len xs) L)))).
Proof.
  intros HL Hne.
  pose proof (cdiv_bounds (Py.len xs) L ltac:(lia)) as Hc.
  assert (0 < Py.len xs) as Hn.
  { unfold Py.len. destruct xs; [done | cbn [length]; lia]. }
  pose proof (cdiv_pos (Py.len xs) L ltac:(lia) Hn) as Hcpos.
  set (c := Z.to_nat (cdiv (Py.len xs) L)) in *.
  set (Ln := Z.to_nat L) in *.
  assert (0 < c)%nat as Hc0 by (subst c; lia).
  assert ((c - 1) * Ln < length xs <= c * Ln)%nat as Hcn.
  { subst c Ln. unfold Py.len in *. nia. }
  assert (0 < Ln)%nat as HLn by (subst Ln; lia).
  set (ws := map (chunk_at xs Ln) (seq 0 c)).
  assert (length ws = c) as Hlen by (subst ws; by rewrite length_map, length_seq).
  assert (ws <> []) as Hws by (intros E; rewrite E in Hlen; cbn in Hlen; lia).
  assert (ws !! pred c = Some (chunk_at xs Ln (pred c))) as Hlast.
  { subst ws. rewrite list_lookup_fmap, lookup_seq_lt by lia. done. }
  unfold pad_last, Py.getitem, Py.setitem.
  rewrite (index_last ws Hws), Hlen, Hlast. run_bind.
  assert (map (window_at xs Ln) (seq 0 c)
          = <[pred c := window_at xs Ln (pred c)]> ws) as Hins.
  { apply list_eq. intros i.
    destruct (decide (i = pred c)) as [->|Hi].
    - rewrite list_lookup_insert_eq by lia.
      rewrite list_lookup_fmap, lookup_seq_lt by lia. done.
    - rewrite list_lookup_insert_ne by done.
      subst ws. rewrite !list_lookup_fmap.
      destruct (decide (i < c)%nat) as [Hic|Hic].
      + rewrite lookup_seq_lt by done. cbn.
        f_equal. apply window_at_full. nia.
      + by rewrite lookup_seq_ge by lia. }
  destruct (Z.ltb_spec (Py.len (chunk_at xs Ln (pred c))) L) as [Hshort|Hfull].
  - rewrite Hins. do 2 f_equal. unfold window_at. f_equal.
    rewrite mul_singleton. f_equal. unfold Py.len. subst Ln. lia.
  - rewrite Hins. f_equal. symmetry. apply list_insert_id.
    rewrite Hlast. f_equal. unfold window_at.
    replace (Ln - length (chunk_at xs Ln (pred c)))%nat with 0%nat.
    + cbn [replicate]. by rewrite app_nil_r.
    + unfold Py.len in Hfull. subst Ln. lia.
Qed.

(** The label stream: the tokens shifted left by one, then a zero. *)
Lemma shift_labels_drop (flat : list Z) : shift_labels flat = drop 1 flat ++ [0].
Proof. unfold shift_labels. by rewrite slice_from_nat by lia. Qed.

Lemma length_shift_labels (flat : list Z) :
  flat <> [] -> length (shift_labels flat) = length flat.
Proof.
  intros Hne. rewrite shift_labels_drop, length_app, length_drop.
  destruct flat; [done | cbn [length]; lia].
Qed.

Lemma lookup_shift_labels_lt (flat : list Z) (p : nat) :
  (S p < length flat)%nat -> shift_labels flat !! p = flat !! S p.
Proof.
  intros Hp. rewrite shift_labels_drop.
  rewrite lookup_app_l by (rewrite length_drop; lia).
  by rewrite lookup_drop.
Qed.

Lemma lookup_shift_labels_last (flat : list Z) (p : nat) :
  S p = length flat -> shift_labels flat !! p = Some 0.
Proof.
  intros Hp. rewrite shift_labels_drop.
  rewrite lookup_app_r by (rewrite length_drop; lia).
  rewrite length_drop. by replace (p - (length flat - 1))%nat with 0%nat by lia.
Qed.

(** The constructor on a non-empty token list. *)
Lemma of_tokens_ok (flat : list Z) (L : Z) :
  1 <= L -> flat <> [] ->
  of_tokens L flat
  = Ok {| data := map (window_at flat (Z.to_nat L))
                      (seq 0 (Z.to_nat (cdiv (Py.len flat) L)));
          labels := map (window_at (shift_labels flat) (Z.to_nat L))
                        (seq 0 (Z.to_nat (cdiv (Py.len flat) L))) |}.
Proof.
  intros HL Hne. unfold of_tokens.
  assert (shift_labels flat <> []) as Hne'.
  { rewrite shift_labels_drop. by destruct (drop 1 flat). }
  assert (Py.len (shift_labels flat) = Py.len flat) as Hlen.
  { unfold Py.len. by rewrite length_shift_labels. }
  rewrite !split_sequences_ok by done. run_bind.
  rewrite pad_last_chunks by done. run_bind.
  rewrite pad_last_chunks by done. run_bind.
  by rewrite Hlen.
Qed.

Lemma slice_chunk_at (xs : list Z) (L k : Z) :
  1 <= L -> 0 <= k -> k * L < Py.len xs ->
  Py.slice xs (k * L) (Z.min ((k + 1) * L) (Py.len xs))
  = chunk_at xs (Z.to_nat L) (Z.to_nat k).
Proof.
  intros HL Hk Hlt. rewrite slice_nat by nia. unfold chunk_at.
  replace (Z.to_nat (k * L)) with (Z.to_nat k * Z.to_nat L)%nat by nia.
  unfold Py.len in *.
  destruct (Z_le_gt_dec ((k + 1) * L) (Z.of_nat (length xs))) as [Hfit|Hcut].
  - rewrite Z.min_l by lia. f_equal. nia.
  - rewrite Z.min_r by lia.
    rewrite !take_ge; [done | |]; rewrite length_drop; nia.
Qed.

Lemma len_chunk_at (xs : list Z) (L k : Z) :
  1 <= L -> 0 <= k -> k * L < Py.len xs ->
  Py.len (chunk_at xs (Z.to_nat L) (Z.to_nat k))
  = Z.min ((k + 1) * L) (Py.len xs) - k * L.
Proof.
  intros HL Hk Hlt. unfold Py.len in *. rewrite length_chunk_at. nia.
Qed.

Lemma getitem_lookup {A : Type} (xs : list A) (i : Z) (x : A) :
  0 <= i -> xs !! Z.to_nat i = Some x -> Py.getitem xs i = Ok x.
Proof.
  intros Hi Hx. pose proof (lookup_lt_Some _ _ _ Hx) as Hlt.
  unfold Py.getitem, Py.index, Py.len.
  destruct (Z.ltb_spec i 0) as [?|_]; [lia|].
  destruct (Z.leb_spec 0 i) as [_|?]; [|lia].
  destruct (Z.ltb_spec i (Z.of_nat (length xs))) as [_|?]; [|lia].
  cbn [andb]. by rewrite Hx.
Qed.

Lemma nonempty_len {A : Type} (xs : list A) : 1 <= Py.len xs -> xs <> [].
Proof. intros Hn ->. unfold Py.len in Hn. cbn in Hn. lia. Qed.

(** C2. For a token list of [n >= 1] tokens and [seq_len = L >= 1] the
    constructor succeeds and the dataset has [ceil(n / L)] windows, each of
    length [L]; window [i] is the slice of the tokens from [i * L] to
    [min((i + 1) * L, n)] followed by zeros up to length [L], and every
    window but the last is that slice alone, of length [L]. *)
Theorem dataset_windows (flat : list Z) (L : Z) :
  1 <= Py.len flat -> 1 <= L ->
  exists ds,
    of_tokens L flat = Ok ds /\
    GutenbergPoetryDataset_len ds = cdiv (Py.len flat) L /\
    (forall w, w ∈ data ds -> Py.len w = L) /\
    (forall i, 0 <= i < cdiv (Py.len flat) L ->
       data ds !! Z.to_nat i
       = Some (Py.slice flat (i * L) (Z.min ((i + 1) * L) (Py.len flat))
               ++ replicate
                    (Z.to_nat (L - (Z.min ((i + 1) * L) (Py.len flat) - i * L))) 0)) /\
    (forall i, 0 <= i < cdiv (Py.len flat) L - 1 ->
       data ds !! Z.to_nat i = Some (Py.slice flat (i * L) ((i + 1) * L)) /\
       Py.len (Py.slice flat (i * L) ((i + 1) * L)) = L).
Proof.
  intros Hn HL.
  pose proof (cdiv_bounds (Py.len flat) L ltac:(lia)) as Hc.
  eexists. split; [apply of_tokens_ok; auto using nonempty_len|].
  unfold GutenbergPoetryDataset_len. cbn [data].
  set (c := cdiv (Py.len flat) L) in *.
  assert (forall i, 0 <= i < c ->
            map (window_at flat (Z.to_nat L)) (seq 0 (Z.to_nat c)) !! Z.to_nat i
            = Some (window_at flat (Z.to_nat L) (Z.to_nat i))) as Hlook.
  { intros i Hi. rewrite list_lookup_fmap, lookup_seq_lt by lia. done. }
  repeat split.
  - unfold Py.len. rewrite length_map, length_seq.
    pose proof (cdiv_nonneg (Py.len flat) L ltac:(lia) ltac:(lia)). fold c in H. lia.
  - intros w Hw. apply list_elem_of_fmap in Hw as (k & -> & _).
    unfold Py.len. rewrite length_window_at. lia.
  - intros i Hi. rewrite Hlook by done. f_equal. unfold window_at.
    assert (i * L < Py.len flat) as Hlt by nia.
    rewrite slice_chunk_at by lia. f_equal. f_equal.
    pose proof (len_chunk_at flat L i ltac:(lia) ltac:(lia) Hlt) as Hl.
    unfold Py.len in Hl. unfold Py.len. lia.
  - rewrite Hlook by lia. f_equal.
    assert (i * L < Py.len flat) as Hlt by nia.
    assert ((i + 1) * L <= Py.len flat) as Hfit by nia.
    rewrite window_at_full by (unfold Py.len in *; nia).
    rewrite <- slice_chunk_at by lia. by rewrite Z.min_l by lia.
  - assert (i * L < Py.len flat) as Hlt by nia.
    assert ((i + 1) * L <= Py.len flat) as Hfit by nia.
    pose proof (slice_chunk_at flat L i ltac:(lia) ltac:(lia) Hlt) as Hs.
    rewrite Z.min_l in Hs by lia. rewrite Hs.
    rewrite len_chunk_at by lia. lia.
Qed.

Lemma dataset_windows_witness :
  exists ds,
    of_tokens 3 [11; 12; 13; 14; 15; 16; 17] = Ok ds /\
    GutenbergPoetryDataset_len ds = 3.
Proof.
  assert (1 <= Py.len [11; 12; 13; 14; 15; 16; 17]) as Hn by (vm_compute; discriminate).
  destruct (dataset_windows [11; 12; 13; 14; 15; 16; 17] 3 Hn ltac:(lia))
    as (ds & Hds & Hlen & _).
  exists ds. split; [exact Hds | exact Hlen].
Defined.

(** C9. The label at flat position [p] is the token at position [p + 1],
    and the label at the last position is 0; inside the dataset, position
    [p] sits in window [p / L] at offset [p mod L], where the input is
    token [p] and the label is the next token (0 after the last one). *)
Theorem labels_next_token (flat : list Z) (L : Z) :
  1 <= Py.len flat -> 1 <= L ->
  Py.len (shift_labels flat) = Py.len flat /\
  (forall p, 0 <= p < Py.len flat - 1 ->
     shift_labels flat !! Z.to_nat p = flat !! Z.to_nat (p + 1)) /\
  shift_labels flat !! Z.to_nat (Py.len flat - 1) = Some 0 /\
  exists ds,
    of_tokens L flat = Ok ds /\
    forall p, 0 <= p < Py.len flat ->
      exists x y,
        GutenbergPoetryDataset_getitem ds (p / L) = Ok (x, y) /\
        x !! Z.to_nat (p mod L) = flat !! Z.to_nat p /\
        y !! Z.to_nat (p mod L)
        = if p + 1 <? Py.len flat then flat !! Z.to_nat (p + 1) else Some 0.
Proof.
  intros Hn HL.
  pose proof (nonempty_len flat Hn) as Hne.
  pose proof (length_shift_labels flat Hne) as Hlen.
  split; [unfold Py.len; by rewrite Hlen|].
  split.
  { intros p Hp. unfold Py.len in *.
    rewrite lookup_shift_labels_lt by lia. f_equal. lia. }
  split.
  { apply lookup_shift_labels_last. unfold Py.len in *. lia. }
  eexists. split; [apply of_tokens_ok; done|].
  intros p Hp.
  pose proof (cdiv_bounds (Py.len flat) L ltac:(lia)) as Hc.
  set (c := cdiv (Py.len flat) L) in *.
  pose proof (Z.div_mod p L ltac:(lia)) as Hdm.
  pose proof (Z.mod_pos_bound p L ltac:(lia)) as Hr.
  assert (0 <= p / L) as Hq by (apply Z.div_pos; lia).
  assert (p / L < c) as Hqc by nia.
  exists (window_at flat (Z.to_nat L) (Z.to_nat (p / L))),
         (window_at (shift_labels flat) (Z.to_nat L) (Z.to_nat (p / L))).
  assert (Z.to_nat p
          = (Z.to_nat (p / L) * Z.to_nat L + Z.to_nat (p mod L))%nat) as Hpos by nia.
  split; [|split].
  - unfold GutenbergPoetryDataset_getitem. cbn [data labels].
    erewrite !getitem_lookup; [reflexivity | lia | | lia |].
    all: rewrite list_lookup_fmap, lookup_seq_lt by lia; reflexivity.
  - rewrite lookup_window_at_lt by (unfold Py.len in *; lia).
    by rewrite <- Hpos.
  - rewrite lookup_window_at_lt by (rewrite ?Hlen; unfold Py.len in *; lia).
    rewrite <- Hpos. unfold Py.len in *.
    destruct (Z.ltb_spec (p + 1) (Z.of_nat (length flat))) as [Hin|Hlast].
    + rewrite lookup_shift_labels_lt by lia. f_equal. lia.
    + apply lookup_shift_labels_last. lia.
Qed.

Lemma labels_next_token_witness :
  exists ds,
    of_tokens 3 [11; 12; 13; 14; 15; 16; 17] = Ok ds /\
    exists x y,
      GutenbergPoetryDataset_getitem ds (5 / 3) = Ok (x, y) /\
      x !! Z.to_nat (5 mod 3) = Some 16 /\
      y !! Z.to_nat (5 mod 3) = Some 17.
Proof.
  assert (1 <= Py.len [11; 12; 13; 14; 15; 16; 17]) as Hn by (vm_compute; discriminate).
  destruct (labels_next_token [11; 12; 13; 14; 15; 16; 17] 3 Hn ltac:(lia))
    as (_ & _ & _ & ds & Hds & Hpos).
  exists ds. split; [exact Hds|].
  destruct (Hpos 5) as (x & y & Hget & Hx & Hy); [vm_compute; split; [discriminate | reflexivity]|].
  exists x, y. split; [exact Hget|]. split; [exact Hx | exact Hy].
Defined.

(** ** Reading the corpus *)

Lemma forM_Ok {A B : Type} (f : A -> result B) (xs : list A) (ys : list B) :
  forM f xs = Ok ys <-> Forall2 (fun x y => f x = Ok y) xs ys.
Proof.
  revert ys. induction xs as [|x xs IH]; intros ys; cbn [forM].
  - split.
    + intros [= <-]. constructor.
    + intros Hall. by inversion Hall.
  - split.
    + destruct (f x) as [y|e] eqn:Hx; run_bind; [|done].
      destruct (forM f xs) as [ys'|e] eqn:Hxs; run_bind; [|done].
      intros [= <-]. constructor; [done|]. by apply IH.
    + intros Hall. inversion Hall as [|? y ? ys' Hx Hrest]; subst.
      rewrite Hx. run_bind.
      apply IH in Hrest. rewrite Hrest. done.
Qed.

Lemma as_str_Ok (v : json) (s : string) : as_str v = Ok s <-> v = JString s.
Proof.
  split.
  - destruct v; cbn; try done. by intros [= ->].
  - by intros ->.
Qed.

Lemma join_Ok (items : list json) (text : string) :
  join items = Ok text
  <-> exists strs, items = map JString strs /\ text = String.concat "" strs.
Proof.
  unfold join. split.
  - destruct (forM as_str items) as [strs|e] eqn:Hstrs; run_bind; [|done].
    intros [= <-]. exists strs. split; [|done].
    apply forM_Ok in Hstrs.
    induction Hstrs as [|v s vs ss Hv _ IH]; [done|].
    apply as_str_Ok in Hv. cbn [map]. by rewrite Hv, IH.
  - intros (strs & -> & ->).
    assert (forM as_str (map JString strs) = Ok strs) as ->.
    { apply forM_Ok. induction strs; constructor; done. }
    done.
Qed.

Section Corpus.
Context `{Text}.

Lemma read_record_Ok (line : string) (v : json) :
  match json_loads (strip line) with
  | Some r => subscript r "s"
  | None => Raise JSONDecodeError
  end = Ok v
  <-> exists fields,
        json_loads (strip line) = Some (JObject fields) /\
        dict_get fields "s" = Some v.
Proof.
  split.
  - destruct (json_loads (strip line)) as [r|]; [|done].
    destruct r; cbn; try done.
    destruct (dict_get fields "s") as [x|] eqn:Hget; [|done].
    intros [= ->]. by exists fields.
  - intros (fields & -> & Hget). cbn. by rewrite Hget.
Qed.

Lemma flat_tokens_Ok (tokenizer : Tokenizer) (file : list string) (flat : list Z) :
  flat_tokens tokenizer file = Ok flat
  <-> exists strs,
        Forall2 record_string file strs /\
        flat = encode tokenizer (String.concat "" strs).
Proof.
  unfold flat_tokens, read_records. split.
  - destruct (forM _ file) as [recs|e] eqn:Hrecs; run_bind; [|done].
    destruct (join recs) as [text|e] eqn:Htext; run_bind; [|done].
    intros [= <-].
    apply join_Ok in Htext as (strs & -> & ->).
    exists strs. split; [|done].
    apply forM_Ok in Hrecs.
    revert Hrecs. generalize strs. clear strs.
    induction file as [|line file IH]; intros strs Hall.
    + destruct strs; [constructor | inversion Hall].
    + destruct strs as [|s strs]; [inversion Hall|].
      cbn [map] in Hall. inversion Hall as [|? ? ? ? Hline Hrest]; subst.
      constructor; [|by apply IH].
      by apply read_record_Ok in Hline.
  - intros (strs & Hall & ->).
    assert (forM (fun line =>
                    match json_loads (strip line) with
                    | Some v => subscript v "s"
                    | None => Raise JSONDecodeError
                    end) file = Ok (map JString strs)) as ->.
    { apply forM_Ok.
      induction Hall as [|line s file strs Hline _ IH]; cbn [map]; constructor; [|done].
      by apply read_record_Ok. }
    run_bind.
    assert (join (map JString strs) = Ok (String.concat "" strs)) as ->.
    { apply join_Ok. by exists strs. }
    done.
Qed.

(** C3. The flat token sequence is the tokenizer's encoding of the
    concatenation, in file order, of the string field ["s"] of the record
    on every line; the dataset is built from that sequence. *)
Theorem corpus_concatenated_then_tokenized
    (tokenizer : Tokenizer) (file : list string) :
  (forall strs,
     Forall2 record_string file strs ->
     flat_tokens tokenizer file
     = Ok (encode tokenizer (String.concat "" strs))) /\
  (forall flat,
     flat_tokens tokenizer file = Ok flat ->
     exists strs,
       Forall2 record_string file strs /\
       flat = encode tokenizer (String.concat "" strs)) /\
  (forall L ds,
     GutenbergPoetryDataset_init L tokenizer file = Ok ds ->
     exists strs,
       Forall2 record_string file strs /\
       of_tokens L (encode tokenizer (String.concat "" strs)) = Ok ds).
Proof.
  split; [|split].
  - intros strs Hall. apply flat_tokens_Ok. by exists strs.
  - intros flat Hflat. by apply flat_tokens_Ok.
  - intros L ds. unfold GutenbergPoetryDataset_init.
    destruct (flat_tokens tokenizer file) as [flat|e] eqn:Hflat;
      run_bind; [|done].
    intros Hds. apply flat_tokens_Ok in Hflat as (strs & Hall & ->).
    by exists strs.
Qed.

(** C10, as the code has it.  When the tokenization is empty and
    [seq_len] is not zero, the constructor raises [IndexError] at
    [self.data[-1]]; when the tokenization is not empty and
    [seq_len >= 1], both lists of chunks have a last element, the
    constructor succeeds, and [data] and [labels] have the same number
    of windows. *)
Theorem constructor_last_window
    (tokenizer : Tokenizer) (file : list string) (flat : list Z) (L : Z) :
  flat_tokens tokenizer file = Ok flat ->
  (flat = [] -> L <> 0 ->
   GutenbergPoetryDataset_init L tokenizer file = Raise IndexError) /\
  (flat <> [] -> 1 <= L ->
   exists d l ds,
     split_sequences flat L = Ok d /\
     split_sequences (shift_labels flat) L = Ok l /\
     Py.index d (-1) = Some (pred (length d)) /\
     Py.index l (-1) = Some (pred (length l)) /\
     GutenbergPoetryDataset_init L tokenizer file = Ok ds /\
     Py.len (data ds) = Py.len (labels ds)).
Proof.
  intros Hflat. unfold GutenbergPoetryDataset_init. rewrite Hflat.
  run_bind. split.
  - intros -> HL. unfold of_tokens.
    destruct (Z_lt_ge_dec L 0) as [Hneg|Hpos].
    + rewrite !split_sequences_neg by done. done.
    + rewrite !split_sequences_ok by lia.
      change (Py.len []) with 0. rewrite cdiv_0 by lia. done.
  - intros Hne HL.
    assert (shift_labels flat <> []) as Hne'.
    { rewrite shift_labels_drop. by destruct (drop 1 flat). }
    assert (forall xs : list Z, xs <> [] ->
              map (chunk_at xs (Z.to_nat L))
                  (seq 0 (Z.to_nat (cdiv (Py.len xs) L))) <> []) as Hchunks.
    { intros xs Hxs E. apply (f_equal length) in E.
      rewrite length_map, length_seq in E. cbn in E.
      assert (0 < Py.len xs).
      { unfold Py.len. destruct xs; [done | cbn [length]; lia]. }
      pose proof (cdiv_pos (Py.len xs) L ltac:(lia) ltac:(lia)). lia. }
    eexists _, _, _.
    split; [by apply split_sequences_ok|].
    split; [by apply split_sequences_ok|].
    split; [by apply index_last, Hchunks|].
    split; [by apply index_last, Hchunks|].
    split; [by apply of_tokens_ok|].
    cbn [data labels]. unfold Py.len. by rewrite !length_map.
Qed.
End Corpus.

Lemma constructor_last_window_witness :
  GutenbergPoetryDataset_init 3 Demo.byte_tokenizer [] = Raise IndexError /\
  exists ds,
    GutenbergPoetryDataset_init 4 Demo.byte_tokenizer Demo.corpus = Ok ds /\
    Py.len (data ds) = Py.len (labels ds).
Proof.
  split.
  - apply (constructor_last_window Demo.byte_tokenizer [] [] 3 eq_refl);
      [reflexivity | discriminate].
  - assert (flat_tokens Demo.byte_tokenizer Demo.corpus
            = Ok (encode Demo.byte_tokenizer
                    "Twas brillig, and the slithy tovesDid gyre and gimble in the wabe"))
      as Hflat by reflexivity.
    destruct (constructor_last_window Demo.byte_tokenizer Demo.corpus _ 4 Hflat)
      as [_ Hok].
    destruct Hok as (d & l & ds & _ & _ & _ & _ & Hds & Hlen);
      [discriminate | lia |].
    exists ds. split; [exact Hds | exact Hlen].
Defined.

(** C10, as stated.  With [seq_len = 0] the constructor stops at [range]
    with a
    [ValueError], before any window is indexed: the empty corpus does not
    raise [IndexError] there. *)
Lemma constructor_step_zero :
  flat_tokens Demo.byte_tokenizer [] = Ok [] /\
  GutenbergPoetryDataset_init 0 Demo.byte_tokenizer []
  = Raise (ValueError "range() arg 3 must not be zero") /\
  GutenbergPoetryDataset_init 0 Demo.byte_tokenizer [] <> Raise IndexError.
Proof. split; [reflexivity|]. split; [reflexivity | discriminate]. Qed.

(** ** The learning-rate schedule *)

Lemma schedule_warmup (a : Args) (step max_steps : Z) :
  step < warmup_steps a ->
  cosine_lr_schedule a step max_steps
  = (IZR step / IZR (Z.max 1 (warmup_steps a)) * lr a)%R.
Proof.
  intros Hs. unfold cosine_lr_schedule.
  by destruct (Z.ltb_spec step (warmup_steps a)) as [_|?]; [|lia].
Qed.

Lemma schedule_decay (a : Args) (step max_steps : Z) :
  warmup_steps a <= step ->
  cosine_lr_schedule a step max_steps
  = (Rmin (lr a / 5) 1e-4
     + 0.5 * (lr a - Rmin (lr a / 5) 1e-4)
       * (1.0 + cos (PI * (IZR (step - warmup_steps a)
                           / IZR (Z.max 1 (max_steps - warmup_steps a))))))%R.
Proof.
  intros Hs. unfold cosine_lr_schedule.
  by destruct (Z.ltb_spec step (warmup_steps a)) as [?|_]; [lia|].
Qed.

(** C4. During warmup the schedule is [step / max(1, warmup_steps) * lr],
    in real arithmetic and, as the same expression, in binary64: it is 0
    at step 0, grows by [lr / warmup_steps] per step, and stays between 0
    and [lr] when [lr] is not negative. *)
Theorem warmup_linear (a : Args) (step max_steps : Z) :
  0 <= step < warmup_steps a ->
  cosine_lr_schedule a step max_steps
  = (IZR step / IZR (Z.max 1 (warmup_steps a)) * lr a)%R /\
  (forall (fcos : float -> float) (rate : float),
     F64.cosine_lr_schedule fcos rate (warmup_steps a) step max_steps
     = (F64.of_int step / F64.of_int (Z.max 1 (warmup_steps a)) * rate)%float) /\
  cosine_lr_schedule a 0 max_steps = 0%R /\
  (step + 1 < warmup_steps a ->
   (cosine_lr_schedule a (step + 1) max_steps - cosine_lr_schedule a step max_steps
    = lr a / IZR (warmup_steps a))%R) /\
  ((0 <= lr a)%R ->
   (0 <= cosine_lr_schedule a step max_steps <= lr a)%R).
Proof.
  intros [Hs0 Hsw].
  assert (Z.max 1 (warmup_steps a) = warmup_steps a) as Hmax by lia.
  assert (0 < IZR (warmup_steps a))%R as Hw by (apply IZR_lt; lia).
  split; [by apply schedule_warmup|].
  split.
  { intros fcos rate. unfold F64.cosine_lr_schedule.
    by destruct (Z.ltb_spec step (warmup_steps a)) as [_|?]; [|lia]. }
  split.
  { rewrite schedule_warmup by lia. rewrite Hmax. field. lra. }
  split.
  { intros Hnext. rewrite !schedule_warmup by lia. rewrite Hmax.
    rewrite plus_IZR. field. lra. }
  intros Hlr. rewrite schedule_warmup by lia. rewrite Hmax.
  assert (0 <= IZR step < IZR (warmup_steps a))%R as [Hs0' Hsw'].
  { split; [apply IZR_le | apply IZR_lt]; lia. }
  assert (0 <= IZR step / IZR (warmup_steps a) <= 1)%R as [Hq0 Hq1].
  { split.
    - apply Rmult_le_pos; [lra|]. left. by apply Rinv_0_lt_compat.
    - apply (Rmult_le_reg_r (IZR (warmup_steps a))); [lra|].
      unfold Rdiv. rewrite Rmult_assoc, Rinv_l by lra. lra. }
  split; nra.
Qed.

Lemma warmup_linear_witness :
  cosine_lr_schedule default_args 3 100 = (IZR 3 / IZR (Z.max 1 10) * 0.002)%R.
Proof.
  apply (warmup_linear default_args 3 100). cbn. lia.
Defined.

(** The decay phase starts at [lr]. *)
Lemma schedule_at_warmup (a : Args) (max_steps : Z) :
  cosine_lr_schedule a (warmup_steps a) max_steps = lr a.
Proof.
  rewrite schedule_decay by lia. rewrite Z.sub_diag.
  assert (forall x : R, (0 / x = 0)%R) as Hz by (intros x; unfold Rdiv; ring).
  rewrite Hz, Rmult_0_r, cos_0. lra.
Qed.





(** At the default [lr = 0.002] the binary64 value is [lr]. *)
Lemma peak_exact_binary64_default (fcos : float -> float) :
  fcos 0%float = 1%float ->
  F64.cosine_lr_schedule fcos 0.002 10 10 20 = 0.002%float.
Proof.
  intros Hcos. unfold F64.cosine_lr_schedule.
  change (10 <? 10) with false. cbv iota.
  change (F64.pi * (F64.of_int (10 - 10) / F64.of_int (Z.max 1 (20 - 10))))%float
    with 0%float.
  rewrite Hcos. vm_compute. reflexivity.
Qed.



(** ** The training loop *)

Lemma foldM_snoc {A B : Type} (f : A -> B -> result A) (a : A) (bs : list B) (b : B) :
  foldM f a (bs ++ [b]) = a' ← foldM f a bs; f a' b.
Proof.
  revert a. induction bs as [|b0 bs IH]; intros a; cbn [foldM app].
  - cbn. destruct (f a b); reflexivity.
  - destruct (f a b0) as [a'|e]; run_bind; [apply IH | done].
Qed.

Lemma foldM_Raise {A B : Type} (f : A -> B -> result A) (a : A) (bs : list B) (e : exn) :
  foldM f a bs = Raise e -> exists a' b, f a' b = Raise e.
Proof.
  revert a. induction bs as [|b bs IH]; intros a; cbn [foldM]; [done|].
  destruct (f a b) as [a'|e'] eqn:Hf; run_bind.
  - apply IH.
  - intros [= ->]. by exists a, b.
Qed.

Lemma forM_Raise {A B : Type} (f : A -> result B) (xs : list A) (e : exn) :
  forM f xs = Raise e -> exists x, f x = Raise e.
Proof.
  induction xs as [|x xs IH]; cbn [forM]; [done|].
  destruct (f x) as [y|e'] eqn:Hf; run_bind.
  - destruct (forM f xs) as [ys|e'']; run_bind; [done|].
    intros [= ->]. by apply IH.
  - intros [= ->]. by exists x.
Qed.

Lemma map_seq_from {A : Type} (f : nat -> A) (a b : nat) :
  map f (seq a b) = map (fun j => f (a + j)%nat) (seq 0 b).
Proof.
  revert a. induction b as [|b IH]; intros a; [done|].
  cbn [seq map]. rewrite Nat.add_0_r. f_equal.
  rewrite IH, <- seq_shift, map_map.
  apply map_ext. intros j. f_equal. lia.
Qed.

(** [range(n)] counts from 0. *)
Lemma range_upto (k : nat) :
  Py.range 0 (Z.of_nat k) 1 = Ok (map Z.of_nat (seq 0 k)).
Proof.
  rewrite range_0 by lia. f_equal.
  replace (cdiv (Z.of_nat k) 1) with (Z.of_nat k)
    by (unfold cdiv; rewrite Z.div_1_r; lia).
  rewrite Nat2Z.id. apply map_ext. intros j. lia.
Qed.

Lemma range_upto_Z (n : Z) :
  Py.range 0 n 1 = Ok (map Z.of_nat (seq 0 (Z.to_nat n))).
Proof.
  destruct (Z_le_gt_dec 0 n) as [Hn|Hn].
  - rewrite <- (Z2Nat.id n) at 1 by done. apply range_upto.
  - unfold Py.range, Py.range_length. cbn [Z.eqb Z.ltb Z.compare].
    destruct (Z.ltb_spec 0 n) as [?|_]; [lia|].
    by replace (Z.to_nat n) with 0%nat by lia.
Qed.

Lemma fold_left_Rplus (xs : list R) (acc : R) :
  fold_left Rplus xs acc = (acc + Rsum xs)%R.
Proof.
  revert acc. induction xs as [|x xs IH]; intros acc; cbn [fold_left Rsum fold_right].
  - lra.
  - rewrite IH. unfold Rsum. lra.
Qed.

(** *** Reading the log *)

Lemma scalars_app (t : string) (s : Z) (l1 l2 : list Scalar) :
  scalars t s (l1 ++ l2) = scalars t s l1 ++ scalars t s l2.
Proof.
  induction l1 as [|sc l1 IH]; cbn [scalars app]; [done|].
  destruct (String.eqb (tag sc) t && (global_step sc =? s)); [|done].
  by rewrite IH.
Qed.

Lemma scalars_step_entries_other (rate : Z -> R) (t : string) (s curr k : Z)
    (losses : list R) :
  t <> "Loss/train_step" -> t <> "Learning_rate" ->
  scalars t s (step_entries rate curr k losses) = [].
Proof.
  intros Ht1 Ht2. revert curr k.
  induction losses as [|l ls IH]; intros curr k; cbn [step_entries scalars tag]; [done|].
  destruct (String.eqb_spec "Loss/train_step" t) as [E|_]; [by subst|].
  destruct (String.eqb_spec "Learning_rate" t) as [E|_]; [by subst|].
  cbn [andb]. apply IH.
Qed.

Lemma scalars_step_entries_out (rate : Z -> R) (s curr k : Z) (losses : list R) :
  s < curr \/ curr + Z.of_nat (length losses) <= s ->
  scalars "Loss/train_step" s (step_entries rate curr k losses) = [].
Proof.
  revert curr k.
  induction losses as [|l ls IH]; intros curr k Hs;
    cbn [step_entries scalars tag global_step String.eqb Ascii.eqb Bool.eqb andb];
    [done|].
  cbn [length] in Hs.
  destruct (Z.eqb_spec curr s) as [?|_]; [lia|].
  apply IH. lia.
Qed.

Lemma scalars_step_entries_in (rate : Z -> R) (curr k : Z) (losses : list R) (i : nat) :
  (i < length losses)%nat ->
  scalars "Loss/train_step" (curr + Z.of_nat i) (step_entries rate curr k losses)
  = [nth i losses 0%R].
Proof.
  revert curr k i.
  induction losses as [|l ls IH]; intros curr k i Hi; cbn [length] in Hi; [lia|].
  cbn [step_entries scalars tag global_step String.eqb Ascii.eqb Bool.eqb andb value].
  destruct i as [|i].
  - rewrite Z.add_0_r, Z.eqb_refl. cbn [nth]. f_equal.
    apply scalars_step_entries_out. lia.
  - destruct (Z.eqb_spec curr (curr + Z.of_nat (S i))) as [?|_]; [lia|].
    cbn [nth].
    replace (curr + Z.of_nat (S i)) with (curr + 1 + Z.of_nat i) by lia.
    apply IH. lia.
Qed.

Section TrainFacts.
Context `{Text} `{Torch}.
Variable args : Args.

Local Abbreviation rate := (scheduler_lr args).

Lemma validate_sum (m : Model) (batches : list Batch) :
  validate m batches = Rsum (map (forward false m) batches).
Proof.
  unfold validate.
  assert (forall acc,
            fold_left (fun v b => (v + forward false m b)%R) batches acc
            = (acc + Rsum (map (forward false m) batches))%R) as Hgen.
  { induction batches as [|b bs IH]; intros acc; cbn [fold_left map Rsum fold_right].
    - lra.
    - rewrite IH. unfold Rsum. lra. }
  rewrite Hgen. lra.
Qed.

(** One batch: lines 85-100 in closed form. *)
Lemma train_batch_eq (train_len max_steps epoch : Z)
    (st : TrainState) (train_loss : R) (step : Z) (b : Batch) :
  train_batch args train_len max_steps epoch (st, train_loss) (step, b)
  = ({| model := opt_step (group_lr st) (model st) b;
        group_lr := rate max_steps (last_epoch st + 1);
        last_epoch := last_epoch st + 1;
        writer :=
          writer st
          ++ [ {| tag := "Loss/train_step"; value := forward true (model st) b;
                  global_step := epoch * train_len + step |};
               {| tag := "Learning_rate";
                  value := rate max_steps (last_epoch st + 1);
                  global_step := epoch * train_len + step |} ];
        applied := applied st ++ [group_lr st] |},
     (train_loss + forward true (model st) b)%R).
Proof.
  unfold train_batch, add_scalar. cbn [model group_lr last_epoch writer applied].
  by rewrite <- app_assoc.
Qed.

(** One pass over the training batches. *)
Lemma train_batches_fold (train_len max_steps epoch : Z) (batches : list Batch) :
  forall (st : TrainState) (acc : R) (i0 : Z),
    group_lr st = rate max_steps (last_epoch st) ->
    exists losses st1,
      fold_left (train_batch args train_len max_steps epoch)
                (Py.enumerate_from i0 batches) (st, acc)
      = (st1, (acc + Rsum losses)%R) /\
      length losses = length batches /\
      writer st1
      = writer st
        ++ step_entries (rate max_steps) (epoch * train_len + i0)
                        (last_epoch st) losses /\
      last_epoch st1 = last_epoch st + Z.of_nat (length batches) /\
      group_lr st1 = rate max_steps (last_epoch st1) /\
      applied st1
      = applied st
        ++ map (fun j : nat => rate max_steps (last_epoch st + Z.of_nat j))
               (seq 0 (length batches)).
Proof.
  induction batches as [|b bs IH]; intros st acc i0 Hlr.
  - exists [], st. cbn [Py.enumerate_from fold_left Rsum fold_right length
                        step_entries seq map].
    rewrite !app_nil_r, Z.add_0_r, Rplus_0_r. done.
  - cbn [Py.enumerate_from fold_left]. rewrite train_batch_eq.
    edestruct IH as (losses & st1 & Hfold & Hlen & Hw & Hle & Hlr1 & Happ);
      [|rewrite Hfold]; [reflexivity|].
    cbn [model group_lr last_epoch writer applied] in Hw, Hle, Happ.
    exists (forward true (model st) b :: losses), st1.
    split; [f_equal; cbn [Rsum fold_right]; unfold Rsum; lra|].
    split; [cbn [length]; by rewrite Hlen|].
    split.
    { rewrite Hw, <- app_assoc. cbn [app step_entries].
      by replace (epoch * train_len + (i0 + 1))
           with (epoch * train_len + i0 + 1) by lia. }
    split; [rewrite Hle; cbn [length]; lia|].
    split; [done|].
    rewrite Happ, <- app_assoc. cbn [app length seq map].
    rewrite Hlr, Z.add_0_r. do 2 f_equal.
    rewrite <- seq_shift, map_map.
    apply map_ext. intros j. f_equal. lia.
Qed.

Variables train_dataloader val_dataloader : DataLoader Batch.
Variable max_steps : Z.

Local Abbreviation n := (dl_len train_dataloader).
Local Abbreviation nv := (dl_len val_dataloader).

(** One epoch, when both loaders have batches. *)
Lemma train_epoch_ok (st : TrainState) (epoch : Z) :
  (0 < n)%nat -> (0 < nv)%nat ->
  group_lr st = rate max_steps (last_epoch st) ->
  exists losses st',
    train_epoch args train_dataloader val_dataloader max_steps st epoch = Ok st' /\
    length losses = n /\
    writer st'
    = writer st
      ++ step_entries (rate max_steps) (epoch * Z.of_nat n) (last_epoch st) losses
      ++ [ {| tag := "Loss/train_epoch"; value := Rmean losses;
              global_step := epoch |};
           {| tag := "Loss/validation";
              value := (Rsum (map (forward false (model st'))
                                  (dl_iter val_dataloader epoch))
                        / IZR (Z.of_nat nv))%R;
              global_step := epoch |} ] /\
    last_epoch st' = last_epoch st + Z.of_nat n /\
    group_lr st' = rate max_steps (last_epoch st') /\
    applied st'
    = applied st
      ++ map (fun j : nat => rate max_steps (last_epoch st + Z.of_nat j)) (seq 0 n).
Proof.
  intros Hn Hnv Hlr. unfold train_epoch.
  destruct (train_batches_fold (Z.of_nat n) max_steps epoch
              (dl_iter train_dataloader epoch) st 0%R 0 Hlr)
    as (losses & st1 & Hfold & Hlen & Hw & Hle & Hlr1 & Happ).
  assert (length (dl_iter train_dataloader epoch) = n) as Hiter.
  { unfold dl_iter. by rewrite length_map, length_seq. }
  rewrite Hiter in *. unfold Py.enumerate. rewrite Hfold.
  unfold Py.truediv.
  destruct (Z.eqb_spec (Z.of_nat n) 0) as [?|_]; [lia|].
  destruct (Z.eqb_spec (Z.of_nat nv) 0) as [?|_]; [lia|].
  run_bind.
  eexists losses, _. split; [reflexivity|].
  cbn [add_scalar model group_lr last_epoch writer applied].
  split; [done|].
  split.
  { rewrite Hw, Z.add_0_r, <- !app_assoc. cbn [app]. do 3 f_equal.
    - f_equal. unfold Rmean. rewrite Hlen, INR_IZR_INZ, Rplus_0_l. done.
    - by rewrite validate_sum. }
  done.
Qed.

Lemma scalars_epoch_tail_step (s e : Z) (a b : R) :
  scalars "Loss/train_step" s
    [ {| tag := "Loss/train_epoch"; value := a; global_step := e |};
      {| tag := "Loss/validation"; value := b; global_step := e |} ] = [].
Proof. reflexivity. Qed.

Lemma scalars_epoch_tail_train (s e : Z) (a b : R) :
  scalars "Loss/train_epoch" s
    [ {| tag := "Loss/train_epoch"; value := a; global_step := e |};
      {| tag := "Loss/validation"; value := b; global_step := e |} ]
  = if e =? s then [a] else [].
Proof. cbn. by destruct (e =? s). Qed.

Lemma scalars_epoch_tail_val (s e : Z) (a b : R) :
  scalars "Loss/validation" s
    [ {| tag := "Loss/train_epoch"; value := a; global_step := e |};
      {| tag := "Loss/validation"; value := b; global_step := e |} ]
  = if e =? s then [b] else [].
Proof. cbn. by destruct (e =? s). Qed.

Variable st0 : TrainState.

Lemma epoch_loop_0 :
  epoch_loop args train_dataloader val_dataloader max_steps st0 0 = Ok st0.
Proof. reflexivity. Qed.

Lemma epoch_loop_S (k : nat) :
  epoch_loop args train_dataloader val_dataloader max_steps st0 (Z.of_nat k + 1)
  = st ← epoch_loop args train_dataloader val_dataloader max_steps st0 (Z.of_nat k);
    train_epoch args train_dataloader val_dataloader max_steps st (Z.of_nat k).
Proof.
  unfold epoch_loop.
  replace (Z.of_nat k + 1) with (Z.of_nat (S k)) by lia.
  rewrite !range_upto. run_bind.
  rewrite seq_S, map_app. cbn [map]. apply foldM_snoc.
Qed.

Hypothesis Hn : (0 < n)%nat.
Hypothesis Hnv : (0 < nv)%nat.
Hypothesis Hst0 :
  last_epoch st0 = 0 /\ group_lr st0 = rate max_steps 0 /\
  applied st0 = [] /\ writer st0 = [].

(** The epoch loop runs to the end and keeps the invariant. *)
Lemma epoch_loop_inv (k : nat) :
  exists st,
    epoch_loop args train_dataloader val_dataloader max_steps st0 (Z.of_nat k)
    = Ok st /\
    after_epochs args train_dataloader val_dataloader max_steps st0 k st.
Proof.
  destruct Hst0 as (Hle0 & Hlr0 & Happ0 & Hw0).
  induction k as [|k IH].
  - exists st0. split; [apply epoch_loop_0|].
    unfold after_epochs. rewrite Hle0, Happ0, Hw0. cbn [Nat.mul seq map scalars].
    repeat split; try done. intros e He. lia.
  - destruct IH as (st & Hrun & Hlast & Hlr & Happ & Hfresh & Hfresh' & Hlog).
    destruct (train_epoch_ok st (Z.of_nat k) Hn Hnv Hlr)
      as (losses & st' & Hep & Hlen & Hw & Hle & Hlr' & Happ').
    assert (epoch_loop args train_dataloader val_dataloader max_steps st0
              (Z.of_nat k + 1) = Ok st') as Hrun'.
    { rewrite epoch_loop_S, Hrun. exact Hep. }
    exists st'. split.
    { by replace (Z.of_nat (S k)) with (Z.of_nat k + 1) by lia. }
    assert (forall s, s < Z.of_nat (k * n) \/ Z.of_nat (S k * n) <= s ->
              scalars "Loss/train_step" s
                (step_entries (rate max_steps) (Z.of_nat k * Z.of_nat n)
                              (last_epoch st) losses) = []) as Hout.
    { intros s Hs. apply scalars_step_entries_out. rewrite Hlen. nia. }
    unfold after_epochs.
    split; [rewrite Hle, Hlast; nia|].
    split; [exact Hlr'|].
    split.
    { rewrite Happ', Happ, Hlast.
      replace (S k * n)%nat with (k * n + n)%nat by lia.
      rewrite seq_app, map_app. f_equal. cbn [Nat.add].
      rewrite (map_seq_from _ (k * n) n).
      apply map_ext. intros j. f_equal. lia. }
    split.
    { intros s Hs. rewrite Hw, !scalars_app.
      rewrite Hfresh by nia. rewrite Hout by lia.
      by rewrite scalars_epoch_tail_step. }
    split.
    { intros e He. rewrite Hw, !scalars_app.
      destruct (Hfresh' e ltac:(lia)) as [-> ->].
      rewrite !scalars_step_entries_other by done.
      rewrite scalars_epoch_tail_train, scalars_epoch_tail_val.
      by destruct (Z.eqb_spec (Z.of_nat k) e) as [?|_]; [lia|]. }
    intros e He. destruct (decide (e = k)) as [->|Hek].
    + exists losses. split; [exact Hlen|]. split; [|split].
      * intros i Hi. rewrite Hw, !scalars_app.
        rewrite Hfresh by nia.
        rewrite scalars_step_entries_in by lia.
        by rewrite scalars_epoch_tail_step.
      * rewrite Hw, !scalars_app.
        destruct (Hfresh' (Z.of_nat k) ltac:(lia)) as [-> _].
        rewrite scalars_step_entries_other by done.
        rewrite scalars_epoch_tail_train, Z.eqb_refl. done.
      * exists st'. split; [exact Hrun'|].
        rewrite Hw, !scalars_app.
        destruct (Hfresh' (Z.of_nat k) ltac:(lia)) as [_ ->].
        rewrite scalars_step_entries_other by done.
        rewrite scalars_epoch_tail_val, Z.eqb_refl. done.
    + destruct (Hlog e ltac:(lia)) as (ls & Hls & Hsteps & Hmean & st_e & Hrun_e & Hval).
        exists ls. split; [exact Hls|]. split; [|split].
      * intros i Hi. rewrite Hw, !scalars_app.
        rewrite Hsteps by done. rewrite Hout by nia.
        by rewrite scalars_epoch_tail_step.
      * rewrite Hw, !scalars_app, Hmean.
        rewrite scalars_step_entries_other by done.
        rewrite scalars_epoch_tail_train.
        by destruct (Z.eqb_spec (Z.of_nat k) (Z.of_nat e)) as [?|_]; [lia|].
      * exists st_e. split; [exact Hrun_e|].
        rewrite Hw, !scalars_app, Hval.
        rewrite scalars_step_entries_other by done.
        rewrite scalars_epoch_tail_val.
        by destruct (Z.eqb_spec (Z.of_nat k) (Z.of_nat e)) as [?|_]; [lia|].
Qed.
End TrainFacts.

Section TrainTheorems.
Context `{Text} `{Torch}.
Variable args : Args.

Lemma epoch_loop_to_nat (tdl vdl : DataLoader Batch) (ms : Z) (st0 : TrainState)
    (E : Z) :
  epoch_loop args tdl vdl ms st0 E
  = epoch_loop args tdl vdl ms st0 (Z.of_nat (Z.to_nat E)).
Proof. unfold epoch_loop. by rewrite range_upto_Z, range_upto. Qed.

Lemma train_unfold (corpus : list string) (tokenizer : Tokenizer) (m : Model)
    (ds : GutenbergPoetryDataset) :
  GutenbergPoetryDataset_init (seq_len args) tokenizer corpus = Ok ds ->
  train args corpus tokenizer m
  = epoch_loop args (train_loader args ds) (val_loader args ds)
      (max_steps_of args (train_loader args ds))
      (scheduler_init args m (max_steps_of args (train_loader args ds)))
      (epochs args).
Proof. intros Hds. unfold train. by rewrite Hds. Qed.

(** The run as a whole, when both loaders have batches. *)
Lemma train_inv (corpus : list string) (tokenizer : Tokenizer) (m : Model)
    (ds : GutenbergPoetryDataset) :
  GutenbergPoetryDataset_init (seq_len args) tokenizer corpus = Ok ds ->
  (0 < dl_len (train_loader args ds))%nat ->
  (0 < dl_len (val_loader args ds))%nat ->
  exists st,
    train args corpus tokenizer m = Ok st /\
    after_epochs args (train_loader args ds) (val_loader args ds)
      (max_steps_of args (train_loader args ds))
      (scheduler_init args m (max_steps_of args (train_loader args ds)))
      (Z.to_nat (epochs args)) st.
Proof.
  intros Hds Hn Hnv. rewrite (train_unfold _ _ _ ds Hds), epoch_loop_to_nat.
  apply epoch_loop_inv; [done | done |].
  by cbn [scheduler_init last_epoch group_lr applied writer].
Qed.




(** Every [opt.step()] runs at the base learning rate times the value of
    the schedule: step [j] uses [lr * cosine_lr_schedule(j, max_steps)]. *)
Lemma optimizer_rates (corpus : list string) (tokenizer : Tokenizer)
    (m : Model) (ds : GutenbergPoetryDataset) :
  GutenbergPoetryDataset_init (seq_len args) tokenizer corpus = Ok ds ->
  (0 < dl_len (train_loader args ds))%nat ->
  (0 < dl_len (val_loader args ds))%nat ->
  exists st,
    train args corpus tokenizer m = Ok st /\
    applied st
    = map (fun j : nat =>
             (lr args
              * cosine_lr_schedule args (Z.of_nat j)
                  (max_steps_of args (train_loader args ds)))%R)
          (seq 0 (Z.to_nat (epochs args) * dl_len (train_loader args ds))).
Proof.
  intros Hds Hn Hnv.
  destruct (train_inv corpus tokenizer m ds Hds Hn Hnv)
    as (st & Hrun & _ & _ & Happ & _).
  exists st. split; [exact Hrun | exact Happ].
Qed.

(** *** The errors of [train] *)

Lemma train_epoch_Raise (tdl vdl : DataLoader Batch) (ms : Z)
    (st : TrainState) (epoch : Z) (e : exn) :
  train_epoch args tdl vdl ms st epoch = Raise e -> e = ZeroDivisionError.
Proof.
  unfold train_epoch. destruct (fold_left _ _ _) as [st1 tl].
  unfold Py.truediv.
  destruct (Z.of_nat (dl_len tdl) =? 0); run_bind;
    [by intros [= <-]|].
  destruct (Z.of_nat (dl_len vdl) =? 0); run_bind;
    [by intros [= <-] | done].
Qed.

Lemma split_sequences_Raise (xs : list Z) (L : Z) (e : exn) :
  split_sequences xs L = Raise e ->
  e = ValueError "range() arg 3 must not be zero".
Proof.
  unfold split_sequences, Py.range.
  destruct (L =? 0); run_bind; [by intros [= <-] | done].
Qed.

Lemma pad_last_Raise (ws : list (list Z)) (L : Z) (e : exn) :
  pad_last ws L = Raise e -> e = IndexError.
Proof.
  unfold pad_last, Py.getitem, Py.setitem.
  destruct (Py.index ws (-1)) as [p|]; run_bind;
    [|by intros [= <-]].
  destruct (ws !! p) as [w|]; run_bind; [|by intros [= <-]].
  by destruct (Py.len w <? L).
Qed.

Lemma init_Raise (L : Z) (tokenizer : Tokenizer) (file : list string) (e : exn) :
  GutenbergPoetryDataset_init L tokenizer file = Raise e -> raised_by_train e.
Proof.
  unfold GutenbergPoetryDataset_init, flat_tokens, read_records, raised_by_train.
  destruct (forM _ file) as [recs|e1] eqn:Hrecs; run_bind.
  2:{ intros [= <-]. apply forM_Raise in Hrecs as (line & Hline).
      destruct (json_loads (strip line)) as [v|]; [|injection Hline as <-; tauto].
      destruct v; cbn in Hline; try (injection Hline as <-; tauto).
      destruct (dict_get fields "s"); [done|].
      injection Hline as <-. right. right. left. by eexists. }
  unfold join.
  destruct (forM as_str recs) as [strs|e2] eqn:Hstrs; run_bind.
  2:{ intros [= <-]. apply forM_Raise in Hstrs as (v & Hv).
      destruct v; cbn in Hv; try done; injection Hv as <-; tauto. }
  unfold of_tokens.
  destruct (split_sequences (encode tokenizer _) L) as [d|e3] eqn:Hd;
    run_bind.
  2:{ intros [= <-]. apply split_sequences_Raise in Hd. tauto. }
  destruct (split_sequences (shift_labels _) L) as [l|e4] eqn:Hl;
    run_bind.
  2:{ intros [= <-]. apply split_sequences_Raise in Hl. tauto. }
  destruct (pad_last d L) as [d'|e5] eqn:Hd'; run_bind.
  2:{ intros [= <-]. apply pad_last_Raise in Hd'. tauto. }
  destruct (pad_last l L) as [l'|e6] eqn:Hl'; run_bind.
  2:{ intros [= <-]. apply pad_last_Raise in Hl'. tauto. }
  done.
Qed.

Lemma train_Raise (corpus : list string) (tokenizer : Tokenizer) (m : Model)
    (e : exn) :
  train args corpus tokenizer m = Raise e -> raised_by_train e.
Proof.
  unfold train.
  destruct (GutenbergPoetryDataset_init _ tokenizer corpus) as [ds|e1] eqn:Hds;
    run_bind.
  2:{ intros [= <-]. by apply init_Raise in Hds. }
  unfold epoch_loop. rewrite range_upto_Z. run_bind.
  intros Hloop. apply foldM_Raise in Hloop as (st & ep & Hep).
  apply train_epoch_Raise in Hep. unfold raised_by_train. tauto.
Qed.

Lemma main_transformer (corpus : list string) :
  model_type args = "transformer" ->
  main args corpus
  = train args corpus Tokenizer_new
      (Transformer (seq_len args) (vocab_size Tokenizer_new) (device args)).
Proof.
  intros Heq. unfold main.
  by destruct (String.eqb_spec (model_type args) "transformer").
Qed.

Lemma main_transformer_supported (corpus : list string) :
  model_type args = "transformer" ->
  main args corpus <> Raise (unsupported args).
Proof.
  intros Heq Hraise. rewrite main_transformer in Hraise by done.
  apply train_Raise in Hraise.
  unfold unsupported in Hraise. rewrite Heq in Hraise.
  unfold raised_by_train in Hraise.
  destruct Hraise as [?|[?|[[k ?]|[?|[?|?]]]]]; discriminate.
Qed.

(** C7. [main] raises the unsupported-model-type error exactly when the
    model type is not ["transformer"]; for ["transformer"] it builds the
    model and its result is that of [train]. *)
Theorem main_unsupported_iff (corpus : list string) :
  (main args corpus = Raise (unsupported args)
   <-> model_type args <> "transformer") /\
  (model_type args = "transformer" ->
   main args corpus
   = train args corpus Tokenizer_new
       (Transformer (seq_len args) (vocab_size Tokenizer_new) (device args))).
Proof.
  split; [|apply main_transformer].
  split.
  - intros Hraise Heq. by apply (main_transformer_supported corpus Heq).
  - intros Hne. unfold main.
    by destruct (String.eqb_spec (model_type args) "transformer").
Qed.
End TrainTheorems.

(** From the command line the error of [main] is out of reach:
    [parse_args] admits no model type but ["transformer"]. *)
Lemma parsed_args_supported `{Text} `{Torch} (a a' : Args) (corpus : list string) :
  check_model_type a = Some a' ->
  main a' corpus <> Raise (unsupported a').
Proof.
  unfold check_model_type, model_type_choices. cbn [existsb].
  rewrite orb_false_r.
  destruct (String.eqb_spec (model_type a) "transformer") as [Heq|?]; [|done].
  intros [= <-]. by apply main_transformer_supported.
Qed.

(** ** A run on the small environment *)

Lemma demo_dataset :
  exists ds,
    GutenbergPoetryDataset_init (seq_len Demo.args) Demo.byte_tokenizer Demo.corpus
    = Ok ds /\
    dl_len (train_loader Demo.args ds) = 16%nat /\
    dl_len (val_loader Demo.args ds) = 1%nat.
Proof. eexists. split; [reflexivity|]. split; reflexivity. Qed.


(** C1, on the code.  With the default [--lr 0.002 --warmup-steps 10] the
    optimizer step number 10 runs at [0.002 * 0.002 = 0.000004], while the
    schedule at that step is [0.002]: the learning rate applied is the
    base learning rate times the schedule, not the schedule. *)
Theorem optimizer_rate_is_not_schedule :
  exists st,
    train Demo.args Demo.corpus Demo.byte_tokenizer 0%R = Ok st /\
    applied st !! 10%nat = Some 0.000004%R /\
    cosine_lr_schedule Demo.args 10 16 = 0.002%R /\
    applied st !! 10%nat <> Some (cosine_lr_schedule Demo.args 10 16).
Proof.
  destruct demo_dataset as (ds & Hds & Hn & Hnv).
  destruct (@optimizer_rates Demo.text Demo.torch Demo.args Demo.corpus
              Demo.byte_tokenizer 0%R ds Hds)
    as (st & Hrun & Happ); [rewrite Hn; lia | rewrite Hnv; lia |].
  assert (max_steps_of Demo.args (train_loader Demo.args ds) = 16) as Hms.
  { unfold max_steps_of. rewrite Hn. reflexivity. }
  assert (cosine_lr_schedule Demo.args 10 16 = 0.002%R) as Hpeak.
  { apply (schedule_at_warmup Demo.args 16). }
  assert (applied st !! 10%nat = Some 0.000004%R) as Hten.
  { rewrite Happ, Hn, Hms. rewrite list_lookup_fmap, lookup_seq_lt by (cbn; lia).
    cbn [fmap option_fmap option_map Nat.add].
    change (Z.of_nat 10) with 10. rewrite Hpeak.
    change (lr Demo.args) with 0.002%R. f_equal. lra. }
  exists st. split; [exact Hrun|]. split; [exact Hten|]. split; [exact Hpeak|].
  rewrite Hten, Hpeak. intros [= Heq]. lra.
Qed.

(** ** More on the schedule *)

Lemma min_lr_bounds (a : Args) :
  (0 <= lr a)%R ->
  (0 <= Rmin (lr a / 5) 1e-4 <= lr a)%R.
Proof.
  intros Hlr. split.
  - apply Rmin_glb; lra.
  - eapply Rle_trans; [apply Rmin_l|]. lra.
Qed.

Lemma schedule_decay_range (a : Args) (step max_steps : Z) :
  (0 <= lr a)%R -> warmup_steps a <= step ->
  (Rmin (lr a / 5) 1e-4 <= cosine_lr_schedule a step max_steps <= lr a)%R.
Proof.
  intros Hlr Hd.
  pose proof (min_lr_bounds a Hlr) as [Hm0 Hm1].
  rewrite schedule_decay by lia.
  match goal with |- context [cos ?x] => pose proof (COS_bound x) as [Hc0 Hc1] end.
  split; nra.
Qed.

(** The schedule stays between 0 and [lr], and on the decay branch above
    [min_lr], for every step that is not negative. *)
Lemma schedule_range (a : Args) (step max_steps : Z) :
  (0 <= lr a)%R -> 0 <= step ->
  (0 <= cosine_lr_schedule a step max_steps <= lr a)%R /\
  (warmup_steps a <= step ->
   (Rmin (lr a / 5) 1e-4 <= cosine_lr_schedule a step max_steps)%R).
Proof.
  intros Hlr Hstep.
  pose proof (min_lr_bounds a Hlr) as [Hm0 Hm1].
  destruct (Z_lt_ge_dec step (warmup_steps a)) as [Hw|Hd].
  - split; [|lia].
    rewrite schedule_warmup by done. rewrite Z.max_r by lia.
    assert (0 < IZR (warmup_steps a))%R as Hpos by (apply IZR_lt; lia).
    assert (0 <= IZR step <= IZR (warmup_steps a))%R as [Hs0 Hs1].
    { split; apply IZR_le; lia. }
    assert (0 <= IZR step / IZR (warmup_steps a) <= 1)%R as [Hq0 Hq1].
    { split.
      - apply Rmult_le_pos; [lra|]. left. by apply Rinv_0_lt_compat.
      - apply (Rmult_le_reg_r (IZR (warmup_steps a))); [lra|].
        unfold Rdiv. rewrite Rmult_assoc, Rinv_l by lra. lra. }
    nra.
  - pose proof (schedule_decay_range a step max_steps Hlr ltac:(lia)) as [Hlo Hhi].
    split; [split|intros _]; lra.
Qed.

(** X6. For a learning rate that is not negative the schedule never leaves
    [0, lr], at any step from 0 on (also past [max_steps]); from
    [warmup_steps] on it never falls below [min(lr / 5, 1e-4)]. *)
Theorem schedule_never_exceeds_lr (a : Args) (step max_steps : Z) :
  (0 <= lr a)%R -> 0 <= step ->
  (0 <= cosine_lr_schedule a step max_steps <= lr a)%R /\
  (warmup_steps a <= step ->
   (Rmin (lr a / 5) 1e-4 <= cosine_lr_schedule a step max_steps)%R).
Proof. apply schedule_range. Qed.

Lemma schedule_never_exceeds_lr_witness :
  (0 <= cosine_lr_schedule default_args 250 100 <= 0.002)%R.
Proof.
  apply (schedule_never_exceeds_lr default_args 250 100).
  - change (lr default_args) with 0.002%R. lra.
  - lia.
Defined.

(** X7. [progress] is not clamped at 1: past [max_steps] the schedule
    climbs back along the same cosine, mirrored at [max_steps], and is
    back at [lr] at step [2 * max_steps - warmup_steps]. *)
Theorem schedule_mirrors_past_max_steps (a : Args) (max_steps k : Z) :
  warmup_steps a < max_steps -> 0 <= k <= max_steps - warmup_steps a ->
  cosine_lr_schedule a (max_steps + k) max_steps
  = cosine_lr_schedule a (max_steps - k) max_steps /\
  cosine_lr_schedule a (2 * max_steps - warmup_steps a) max_steps = lr a.
Proof.
  intros Hm Hk.
  assert (0 < IZR (max_steps - warmup_steps a))%R as Hd by (apply IZR_lt; lia).
  assert (forall j,
            (PI * (IZR (max_steps + j - warmup_steps a)
                   / IZR (Z.max 1 (max_steps - warmup_steps a)))
             = PI + PI * (IZR j / IZR (max_steps - warmup_steps a)))%R) as Hprog.
  { intros j. rewrite Z.max_r by lia.
    replace (max_steps + j - warmup_steps a)
      with ((max_steps - warmup_steps a) + j) by lia.
    rewrite plus_IZR. field. lra. }
  split.
  - rewrite !schedule_decay by lia.
    replace (max_steps - k - warmup_steps a)
      with (max_steps + (- k) - warmup_steps a) by lia.
    rewrite !Hprog, opp_IZR.
    replace (PI + PI * (- IZR k / IZR (max_steps - warmup_steps a)))%R
      with (PI - PI * (IZR k / IZR (max_steps - warmup_steps a)))%R
      by (field; lra).
    by rewrite Rtrigo_facts.cos_pi_plus, Rtrigo_facts.cos_pi_minus.
  - rewrite schedule_decay by lia.
    replace (2 * max_steps - warmup_steps a - warmup_steps a)
      with (max_steps + (max_steps - warmup_steps a) - warmup_steps a) by lia.
    rewrite Hprog.
    replace (IZR (max_steps - warmup_steps a) / IZR (max_steps - warmup_steps a))%R
      with 1%R by (field; lra).
    rewrite Rmult_1_r, Rtrigo_facts.cos_pi_plus, cos_PI. lra.
Qed.

Lemma schedule_mirrors_past_max_steps_witness :
  cosine_lr_schedule default_args 130 100 = cosine_lr_schedule default_args 70 100 /\
  cosine_lr_schedule default_args 190 100 = 0.002%R.
Proof.
  apply (schedule_mirrors_past_max_steps default_args 100 30); cbn; lia.
Defined.

(** X8. With a positive learning rate every step of the decay phase
    strictly lowers the schedule, so [min(lr / 5, 1e-4)] is reached at
    [max_steps] and at no earlier step of the phase. *)
Theorem decay_strictly_decreasing (a : Args) (s1 s2 max_steps : Z) :
  (0 < lr a)%R ->
  warmup_steps a <= s1 -> s1 < s2 -> s2 <= max_steps ->
  (cosine_lr_schedule a s2 max_steps < cosine_lr_schedule a s1 max_steps)%R /\
  (Rmin (lr a / 5) 1e-4 < cosine_lr_schedule a s1 max_steps)%R.
Proof.
  intros Hlr Hw H12 Hm.
  assert (Rmin (lr a / 5) 1e-4 < lr a)%R as Hmin.
  { eapply Rle_lt_trans; [apply Rmin_l|]. lra. }
  assert (forall t1 t2,
            warmup_steps a <= t1 -> t1 < t2 -> t2 <= max_steps ->
            (cosine_lr_schedule a t2 max_steps
             < cosine_lr_schedule a t1 max_steps)%R) as Hstrict.
  { intros t1 t2 Hw1 Ht Hm2. rewrite !schedule_decay by lia.
    set (w := warmup_steps a) in *.
    set (d := IZR (Z.max 1 (max_steps - w))).
    assert (1 <= d)%R as Hd by (subst d; apply IZR_le; lia).
    assert (0 <= IZR (t1 - w) < IZR (t2 - w))%R as [H1 H2].
    { split; [apply IZR_le | apply IZR_lt]; lia. }
    assert (IZR (t2 - w) <= d)%R as H3 by (subst d; apply IZR_le; lia).
    assert (0 < / d)%R as Hinv by (apply Rinv_0_lt_compat; lra).
    assert (0 <= IZR (t1 - w) / d < IZR (t2 - w) / d)%R as [Hp1 Hp12].
    { unfold Rdiv. split; [apply Rmult_le_pos; lra|].
      apply Rmult_lt_compat_r; lra. }
    assert (IZR (t2 - w) / d <= 1)%R as Hp2.
    { apply (Rmult_le_reg_r d); [lra|].
      unfold Rdiv. rewrite Rmult_assoc, Rinv_l by lra. lra. }
    pose proof PI_RGT_0 as Hpi.
    assert (cos (PI * (IZR (t2 - w) / d)) < cos (PI * (IZR (t1 - w) / d)))%R.
    { apply cos_decreasing_1; nra. }
    nra. }
  split; [by apply Hstrict|].
  eapply Rle_lt_trans; [|apply (Hstrict s1 s2); lia].
  apply schedule_decay_range; [lra | lia].
Qed.

Lemma decay_strictly_decreasing_witness :
  (cosine_lr_schedule default_args 60 100 < cosine_lr_schedule default_args 20 100)%R.
Proof.
  apply (decay_strictly_decreasing default_args 20 60 100).
  - change (lr default_args) with 0.002%R. lra.
  - cbn. lia.
  - lia.
  - lia.
Defined.

(** ** More on the dataset *)

Lemma getitem_negative {A : Type} (xs : list A) (k : Z) :
  - Py.len xs <= k < 0 -> Py.getitem xs k = Py.getitem xs (k + Py.len xs).
Proof.
  intros Hk. unfold Py.getitem, Py.index.
  destruct (Z.ltb_spec k 0) as [_|?]; [|lia].
  destruct (Z.ltb_spec (k + Py.len xs) 0) as [?|_]; [lia|]. done.
Qed.

Lemma getitem_outside {A : Type} (xs : list A) (k : Z) :
  k < - Py.len xs \/ Py.len xs <= k -> Py.getitem xs k = Raise IndexError.
Proof.
  intros Hk. unfold Py.getitem, Py.index.
  pose proof (len_nonneg xs) as Hn.
  destruct (Z.ltb_spec k 0) as [Hneg|Hpos].
  - destruct (Z.leb_spec 0 (k + Py.len xs)) as [?|_]; [lia | done].
  - destruct (Z.ltb_spec k (Py.len xs)) as [?|_]; [lia|].
    by rewrite andb_false_r.
Qed.

(** The windows joined in order: the list, then zeros. *)
Lemma concat_windows (L c : nat) :
  forall xs : list Z,
    (length xs <= c * L)%nat ->
    concat (map (window_at xs L) (seq 0 c))
    = xs ++ replicate (c * L - length xs) 0.
Proof.
  induction c as [|c IH]; intros xs Hlen.
  - destruct xs; [done | cbn in Hlen; lia].
  - cbn [seq map concat].
    rewrite <- seq_shift, map_map.
    assert (forall k, window_at xs L (S k) = window_at (drop L xs) L k) as Hshift.
    { intros k. unfold window_at, chunk_at. rewrite !drop_drop.
      by replace (L + k * L)%nat with (S k * L)%nat by lia. }
    rewrite (map_ext _ _ Hshift), IH by (rewrite length_drop; lia).
    unfold window_at, chunk_at. cbn [Nat.mul]. rewrite drop_0, length_drop.
    destruct (decide (L <= length xs)%nat) as [Hfull|Hshort].
    + rewrite length_take_le by done.
      replace (L - L)%nat with 0%nat by lia. cbn [replicate].
      rewrite app_nil_r, app_assoc, take_drop. f_equal. f_equal. lia.
    + rewrite take_ge, drop_ge by lia. cbn [app].
      rewrite <- app_assoc. f_equal. rewrite <- replicate_add. f_equal. lia.
Qed.

Section DatasetExtras.
Context `{Text}.

(** X9. A [seq_len] that is not positive never builds a dataset, whatever
    the corpus holds: with [seq_len = 0] the constructor raises the
    [ValueError] of [range], and with [seq_len < 0] there is no window at
    all and [self.data[-1]] raises [IndexError]. *)
Theorem constructor_nonpositive_seq_len
    (tokenizer : Tokenizer) (file : list string) (flat : list Z) :
  flat_tokens tokenizer file = Ok flat ->
  GutenbergPoetryDataset_init 0 tokenizer file
  = Raise (ValueError "range() arg 3 must not be zero") /\
  (forall L, L < 0 ->
     GutenbergPoetryDataset_init L tokenizer file = Raise IndexError).
Proof.
  intros Hflat. unfold GutenbergPoetryDataset_init. rewrite Hflat. run_bind.
  split; [reflexivity|].
  intros L HL. unfold of_tokens. by rewrite !split_sequences_neg by done.
Qed.
End DatasetExtras.

Lemma constructor_nonpositive_seq_len_witness :
  GutenbergPoetryDataset_init 0 Demo.byte_tokenizer Demo.corpus
  = Raise (ValueError "range() arg 3 must not be zero") /\
  GutenbergPoetryDataset_init (-4) Demo.byte_tokenizer Demo.corpus
  = Raise IndexError.
Proof.
  assert (flat_tokens Demo.byte_tokenizer Demo.corpus
          = Ok (encode Demo.byte_tokenizer
                  "Twas brillig, and the slithy tovesDid gyre and gimble in the wabe"))
    as Hflat by reflexivity.
  destruct (constructor_nonpositive_seq_len Demo.byte_tokenizer Demo.corpus _ Hflat)
    as [Hzero Hneg].
  split; [exact Hzero | apply Hneg; lia].
Defined.

(** X10. On a dataset of [c = ceil(n / L)] windows, [ds[idx]] is a pair of
    lists of length [L] for [0 <= idx < c]; a negative index counts from
    the end ([ds[idx] = ds[idx + c]] for [-c <= idx < 0]); every other
    index raises [IndexError]. *)
Theorem getitem_index_range (flat : list Z) (L : Z) :
  1 <= Py.len flat -> 1 <= L ->
  exists ds,
    of_tokens L flat = Ok ds /\
    (forall idx, 0 <= idx < GutenbergPoetryDataset_len ds ->
       exists x y,
         GutenbergPoetryDataset_getitem ds idx = Ok (x, y) /\
         Py.len x = L /\ Py.len y = L) /\
    (forall idx, - GutenbergPoetryDataset_len ds <= idx < 0 ->
       GutenbergPoetryDataset_getitem ds idx
       = GutenbergPoetryDataset_getitem ds (idx + GutenbergPoetryDataset_len ds)) /\
    (forall idx,
       idx < - GutenbergPoetryDataset_len ds \/ GutenbergPoetryDataset_len ds <= idx ->
       GutenbergPoetryDataset_getitem ds idx = Raise IndexError).
Proof.
  intros Hn HL.
  eexists. split; [apply of_tokens_ok; auto using nonempty_len|].
  unfold GutenbergPoetryDataset_len, GutenbergPoetryDataset_getitem.
  cbn [data labels].
  set (c := Z.to_nat (cdiv (Py.len flat) L)).
  assert (forall xs : list Z,
            Py.len (map (window_at xs (Z.to_nat L)) (seq 0 c)) = Z.of_nat c) as Hlen.
  { intros xs. unfold Py.len. by rewrite length_map, length_seq. }
  rewrite Hlen.
  split; [|split].
  - intros idx Hidx.
    exists (window_at flat (Z.to_nat L) (Z.to_nat idx)),
           (window_at (shift_labels flat) (Z.to_nat L) (Z.to_nat idx)).
    split.
    + erewrite !getitem_lookup; [reflexivity | lia | | lia |].
      all: rewrite list_lookup_fmap, lookup_seq_lt by lia; reflexivity.
    + unfold Py.len. rewrite !length_window_at. lia.
  - intros idx Hidx.
    rewrite (getitem_negative (map (window_at flat _) _)) by (rewrite Hlen; lia).
    rewrite (getitem_negative (map (window_at (shift_labels flat) _) _))
      by (rewrite Hlen; lia).
    by rewrite !Hlen.
  - intros idx Hidx.
    rewrite (getitem_outside (map (window_at flat _) _)) by (rewrite Hlen; lia).
    reflexivity.
Qed.

Lemma getitem_index_range_witness :
  exists ds,
    of_tokens 3 [11; 12; 13; 14; 15; 16; 17] = Ok ds /\
    GutenbergPoetryDataset_getitem ds 3 = Raise IndexError.
Proof.
  assert (1 <= Py.len [11; 12; 13; 14; 15; 16; 17]) as Hn by (vm_compute; discriminate).
  destruct (getitem_index_range [11; 12; 13; 14; 15; 16; 17] 3 Hn ltac:(lia))
    as (ds & Hds & _ & _ & Hout).
  exists ds. split; [exact Hds|].
  apply Hout. right.
  assert (ds = {| data := [[11; 12; 13]; [14; 15; 16]; [17; 0; 0]];
                  labels := [[12; 13; 14]; [15; 16; 17]; [0; 0; 0]] |}) as ->.
  { assert (of_tokens 3 [11; 12; 13; 14; 15; 16; 17]
            = Ok {| data := [[11; 12; 13]; [14; 15; 16]; [17; 0; 0]];
                    labels := [[12; 13; 14]; [15; 16; 17]; [0; 0; 0]] |}) as Hev
      by reflexivity.
    rewrite Hds in Hev. by injection Hev. }
  vm_compute. discriminate.
Defined.

(** X11. Windowing loses and reorders nothing: the windows of [data]
    joined in order are the tokens followed by fewer than [L] zeros, and
    those of [labels] are the label stream followed by as many zeros. *)
Theorem windows_concat (flat : list Z) (L : Z) :
  1 <= Py.len flat -> 1 <= L ->
  exists ds,
    of_tokens L flat = Ok ds /\
    0 <= cdiv (Py.len flat) L * L - Py.len flat < L /\
    concat (data ds)
    = flat ++ replicate (Z.to_nat (cdiv (Py.len flat) L * L - Py.len flat)) 0 /\
    concat (labels ds)
    = shift_labels flat
      ++ replicate (Z.to_nat (cdiv (Py.len flat) L * L - Py.len flat)) 0.
Proof.
  intros Hn HL.
  pose proof (nonempty_len flat Hn) as Hne.
  pose proof (cdiv_bounds (Py.len flat) L ltac:(lia)) as Hc.
  pose proof (cdiv_pos (Py.len flat) L ltac:(lia) ltac:(lia)) as Hcpos.
  eexists. split; [by apply of_tokens_ok|]. cbn [data labels].
  split; [lia|].
  unfold Py.len in *.
  rewrite !concat_windows by (rewrite ?length_shift_labels by done; nia).
  rewrite length_shift_labels by done.
  split; do 2 f_equal; nia.
Qed.

Lemma windows_concat_witness :
  exists ds,
    of_tokens 3 [11; 12; 13; 14; 15; 16; 17] = Ok ds /\
    concat (data ds) = [11; 12; 13; 14; 15; 16; 17; 0; 0].
Proof.
  assert (1 <= Py.len [11; 12; 13; 14; 15; 16; 17]) as Hn by (vm_compute; discriminate).
  destruct (windows_concat [11; 12; 13; 14; 15; 16; 17] 3 Hn ltac:(lia))
    as (ds & Hds & _ & Hdata & _).
  exists ds. split; [exact Hds | exact Hdata].
Defined.

(** ** More on reading the corpus *)

Lemma forM_first_Raise {A B : Type} (f : A -> result B)
    (good : list A) (bad : A) (rest : list A) (e : exn) :
  Forall (fun x => exists y, f x = Ok y) good ->
  f bad = Raise e ->
  forM f (good ++ bad :: rest) = Raise e.
Proof.
  intros Hgood Hbad. induction Hgood as [|x good [y Hx] _ IH]; cbn [app forM].
  - by rewrite Hbad.
  - rewrite Hx. run_bind. by rewrite IH.
Qed.

Lemma join_non_string (items : list json) :
  (exists v, v ∈ items /\ forall s, v <> JString s) ->
  join items = Raise TypeError.
Proof.
  intros (v & Hin & Hv). unfold join.
  assert (forM as_str items = Raise TypeError) as ->; [|done].
  induction items as [|w items IH]; [by apply not_elem_of_nil in Hin|].
  cbn [forM].
  destruct w; cbn [as_str]; run_bind; try done.
  apply elem_of_cons in Hin as [->|Hin]; [by destruct (Hv s)|].
  by rewrite IH.
Qed.

Section CorpusExtras.
Context `{Text}.

(** X12. The first line that is not a record with a field ["s"] decides
    the error, whatever type the fields of the lines before it have and
    whatever follows: [JSONDecodeError] when the line is no JSON,
    [KeyError("s")] when it is an object without ["s"], [TypeError] when
    it is JSON but no object. *)
Theorem corpus_first_bad_line (tokenizer : Tokenizer)
    (good : list string) (bad : string) (rest : list string) :
  Forall (fun line =>
            exists fields v,
              json_loads (strip line) = Some (JObject fields) /\
              dict_get fields "s" = Some v) good ->
  (json_loads (strip bad) = None ->
   flat_tokens tokenizer (good ++ bad :: rest) = Raise JSONDecodeError) /\
  (forall fields,
     json_loads (strip bad) = Some (JObject fields) ->
     dict_get fields "s" = None ->
     flat_tokens tokenizer (good ++ bad :: rest) = Raise (KeyError "s")) /\
  (forall v,
     json_loads (strip bad) = Some v ->
     (forall fields, v <> JObject fields) ->
     flat_tokens tokenizer (good ++ bad :: rest) = Raise TypeError).
Proof.
  intros Hgood.
  assert (forall e,
            match json_loads (strip bad) with
            | Some v => subscript v "s"
            | None => Raise JSONDecodeError
            end = Raise e ->
            flat_tokens tokenizer (good ++ bad :: rest) = Raise e) as Hbad.
  { intros e He. unfold flat_tokens, read_records.
    erewrite forM_first_Raise; [reflexivity | | exact He].
    eapply Forall_impl; [exact Hgood|].
    intros line (fields & v & Hline & Hget). exists v.
    apply read_record_Ok. by exists fields. }
  split; [|split].
  - intros Hnone. apply Hbad. by rewrite Hnone.
  - intros fields Hobj Hget. apply Hbad. rewrite Hobj. cbn. by rewrite Hget.
  - intros v Hv Hnot. apply Hbad. rewrite Hv.
    destruct v; cbn; try done. by destruct (Hnot fields).
Qed.

(** X13. When every line is a record with a field ["s"] and one of those
    fields is not a string, the constructor raises [TypeError] at
    [join]. *)
Theorem corpus_non_string_field (tokenizer : Tokenizer)
    (file : list string) (values : list json) :
  Forall2 (fun line v =>
             exists fields,
               json_loads (strip line) = Some (JObject fields) /\
               dict_get fields "s" = Some v) file values ->
  (exists v, v ∈ values /\ forall s, v <> JString s) ->
  forall L,
    GutenbergPoetryDataset_init L tokenizer file = Raise TypeError.
Proof.
  intros Hall Hbad L.
  unfold GutenbergPoetryDataset_init, flat_tokens, read_records.
  assert (forM (fun line =>
                  match json_loads (strip line) with
                  | Some v => subscript v "s"
                  | None => Raise JSONDecodeError
                  end) file = Ok values) as ->.
  { apply forM_Ok. eapply Forall2_impl; [exact Hall|].
    intros line v Hline. by apply read_record_Ok. }
  run_bind. by rewrite join_non_string.
Qed.

(** X14. Only the concatenation of the strings matters: two files whose
    records hold strings with the same concatenation give the same
    dataset (or the same error).  Nothing marks where a record ends. *)
Theorem record_boundaries_vanish (tokenizer : Tokenizer)
    (file1 file2 : list string) (strs1 strs2 : list string) (L : Z) :
  Forall2 record_string file1 strs1 ->
  Forall2 record_string file2 strs2 ->
  String.concat "" strs1 = String.concat "" strs2 ->
  GutenbergPoetryDataset_init L tokenizer file1
  = GutenbergPoetryDataset_init L tokenizer file2.
Proof.
  intros H1 H2 Heq. unfold GutenbergPoetryDataset_init.
  assert (flat_tokens tokenizer file1
          = Ok (encode tokenizer (String.concat "" strs1))) as ->
    by (apply flat_tokens_Ok; by exists strs1).
  assert (flat_tokens tokenizer file2
          = Ok (encode tokenizer (String.concat "" strs2))) as ->
    by (apply flat_tokens_Ok; by exists strs2).
  by rewrite Heq.
Qed.
End CorpusExtras.

Lemma corpus_first_bad_line_witness :
  @flat_tokens DemoStrict.text Demo.byte_tokenizer ["0"; ""; "[]"]
  = Raise JSONDecodeError /\
  @flat_tokens DemoStrict.text Demo.byte_tokenizer ["0"; "{}"; ""]
  = Raise (KeyError "s") /\
  @flat_tokens DemoStrict.text Demo.byte_tokenizer ["0"; "[]"; ""]
  = Raise TypeError.
Proof.
  assert (Forall (fun line =>
                    exists fields v,
                      @json_loads DemoStrict.text (@strip DemoStrict.text line)
                      = Some (JObject fields) /\
                      dict_get fields "s" = Some v) ["0"]) as Hgood.
  { constructor; [|constructor]. eexists _, _. split; reflexivity. }
  split; [|split].
  - apply (@corpus_first_bad_line DemoStrict.text Demo.byte_tokenizer
             ["0"] "" ["[]"] Hgood). reflexivity.
  - apply (proj1 (proj2 (@corpus_first_bad_line DemoStrict.text Demo.byte_tokenizer
                           ["0"] "{}" [""] Hgood)) []); reflexivity.
  - apply (proj2 (proj2 (@corpus_first_bad_line DemoStrict.text Demo.byte_tokenizer
                           ["0"] "[]" [""] Hgood)) (JArray []));
      [reflexivity | discriminate].
Defined.

Lemma corpus_non_string_field_witness :
  @GutenbergPoetryDataset_init DemoStrict.text 4 Demo.byte_tokenizer ["abc"; "0"]
  = Raise TypeError.
Proof.
  apply (@corpus_non_string_field DemoStrict.text Demo.byte_tokenizer
           ["abc"; "0"] [JString "abc"; JInt 0]).
  - constructor; [|constructor; [|constructor]]; eexists; split; reflexivity.
  - exists (JInt 0). split; [|discriminate].
    apply elem_of_cons. right. apply elem_of_cons. by left.
Defined.

Lemma record_boundaries_vanish_witness :
  GutenbergPoetryDataset_init 4 Demo.byte_tokenizer ["Twas bril"; "lig"]
  = GutenbergPoetryDataset_init 4 Demo.byte_tokenizer ["Twas b"; "rillig"].
Proof.
  apply (record_boundaries_vanish Demo.byte_tokenizer
           ["Twas bril"; "lig"] ["Twas b"; "rillig"]
           ["Twas bril"; "lig"] ["Twas b"; "rillig"] 4).
  - repeat (constructor; [eexists; split; reflexivity|]). constructor.
  - repeat (constructor; [eexists; split; reflexivity|]). constructor.
  - reflexivity.
Defined.

(** ** More on the training loop *)

Lemma length_step_entries (rate : Z -> R) (curr k : Z) (losses : list R) :
  length (step_entries rate curr k losses) = (2 * length losses)%nat.
Proof.
  revert curr k. induction losses as [|l ls IH]; intros curr k; [done|].
  cbn [step_entries length]. rewrite IH. lia.
Qed.

Lemma step_entries_tags (rate : Z -> R) (curr k : Z) (losses : list R) :
  Forall (fun sc => tag sc = "Loss/train_step" \/ tag sc = "Learning_rate")
         (step_entries rate curr k losses).
Proof.
  revert curr k. induction losses as [|l ls IH]; intros curr k; [constructor|].
  cbn [step_entries]. constructor; [by left|]. constructor; [by right|]. apply IH.
Qed.

Lemma scalars_step_entries_rate (rate : Z -> R) (s curr k : Z) (losses : list R) :
  scalars "Learning_rate" s (step_entries rate curr k losses)
  = if (curr <=? s) && (s <? curr + Z.of_nat (length losses))
    then [rate (k + (s - curr) + 1)] else [].
Proof.
  revert curr k.
  induction losses as [|l ls IH]; intros curr k.
  - cbn [step_entries scalars length].
    destruct (Z.leb_spec curr s); destruct (Z.ltb_spec s (curr + Z.of_nat 0));
      try done; lia.
  - cbn [step_entries scalars tag global_step String.eqb Ascii.eqb Bool.eqb
         andb value length].
    rewrite IH.
    destruct (Z.eqb_spec curr s) as [->|Hne].
    + destruct (Z.leb_spec (s + 1) s) as [?|_]; [lia|].
      destruct (Z.leb_spec s s) as [_|?]; [|lia].
      destruct (Z.ltb_spec s (s + Z.of_nat (S (length ls)))) as [_|?]; [|lia].
      cbn [andb]. do 2 f_equal. lia.
    + destruct (Z.leb_spec (curr + 1) s) as [Hin|Hout];
        destruct (Z.leb_spec curr s) as [Hin'|Hout']; try lia; cbn [andb]; [|done].
      destruct (Z.ltb_spec s (curr + 1 + Z.of_nat (length ls)));
        destruct (Z.ltb_spec s (curr + Z.of_nat (S (length ls)))); try lia; [|done].
      do 2 f_equal. lia.
Qed.

Lemma length_scalars_step_entries (rate : Z -> R) (s curr k : Z) (losses : list R) :
  length (scalars "Loss/train_step" s (step_entries rate curr k losses))
  = if (curr <=? s) && (s <? curr + Z.of_nat (length losses)) then 1%nat else 0%nat.
Proof.
  destruct (Z.leb_spec curr s) as [Hlo|Hlo]; cbn [andb].
  - destruct (Z.ltb_spec s (curr + Z.of_nat (length losses))) as [Hhi|Hhi].
    + replace s with (curr + Z.of_nat (Z.to_nat (s - curr))) by lia.
      by rewrite scalars_step_entries_in by lia.
    + by rewrite scalars_step_entries_out by lia.
  - by rewrite scalars_step_entries_out by lia.
Qed.

Section EpochLog.
Context `{Text} `{Torch}.
Variable args : Args.
Variables train_dataloader val_dataloader : DataLoader Batch.
Variable max_steps : Z.
Variable st0 : TrainState.

Local Abbreviation n := (dl_len train_dataloader).
Local Abbreviation nv := (dl_len val_dataloader).

Hypothesis Hn : (0 < n)%nat.
Hypothesis Hnv : (0 < nv)%nat.
Hypothesis Hst0 :
  last_epoch st0 = 0 /\ group_lr st0 = scheduler_lr args max_steps 0 /\
  applied st0 = [] /\ writer st0 = [].

(** The shape of the log after [k] epochs. *)
Lemma epoch_loop_log (k : nat) :
  exists st,
    epoch_loop args train_dataloader val_dataloader max_steps st0 (Z.of_nat k)
    = Ok st /\
    length (writer st) = (k * (2 * n + 2))%nat /\
    Forall (fun sc =>
              tag sc ∈ ["Loss/train_step"; "Learning_rate";
                        "Loss/train_epoch"; "Loss/validation"]) (writer st) /\
    (forall s,
       scalars "Learning_rate" s (writer st)
       = if (0 <=? s) && (s <? Z.of_nat (k * n))
         then [scheduler_lr args max_steps (s + 1)] else []) /\
    (forall s,
       length (scalars "Loss/train_step" s (writer st))
       = if (0 <=? s) && (s <? Z.of_nat (k * n)) then 1%nat else 0%nat) /\
    (forall e,
       length (scalars "Loss/train_epoch" e (writer st))
       = if (0 <=? e) && (e <? Z.of_nat k) then 1%nat else 0%nat) /\
    (forall e,
       length (scalars "Loss/validation" e (writer st))
       = if (0 <=? e) && (e <? Z.of_nat k) then 1%nat else 0%nat).
Proof.
  induction k as [|k IH].
  - exists st0. split; [apply epoch_loop_0|].
    destruct Hst0 as (_ & _ & _ & ->). cbn [length Nat.mul scalars].
    split; [done|]. split; [constructor|].
    repeat split; intros s; destruct (Z.leb_spec 0 s);
      destruct (Z.ltb_spec s (Z.of_nat 0)); try done; lia.
  - destruct IH as (st & Hrun & Hlen & Htags & Hrate & Hstep & Htrain & Hval).
    destruct (epoch_loop_inv args train_dataloader val_dataloader max_steps st0
                Hn Hnv Hst0 k) as (st_k & Hrun_k & Hlast & Hlr & _).
    rewrite Hrun in Hrun_k. injection Hrun_k as <-.
    destruct (train_epoch_ok args train_dataloader val_dataloader max_steps
                st (Z.of_nat k) Hn Hnv Hlr)
      as (losses & st' & Hep & Hlosses & Hw & _).
    exists st'. split.
    { replace (Z.of_nat (S k)) with (Z.of_nat k + 1) by lia.
      rewrite epoch_loop_S, Hrun. exact Hep. }
    rewrite Hw. split; [|split; [|split; [|split; [|split]]]].
    + rewrite !length_app, length_step_entries, Hlen, Hlosses. cbn [length]. lia.
    + apply Forall_app. split; [exact Htags|].
      apply Forall_app. split.
      * eapply Forall_impl; [apply step_entries_tags|].
        intros sc [-> | ->]; repeat constructor.
      * constructor; [|constructor; [|constructor]]; cbn [tag]; repeat constructor.
    + intros s. rewrite !scalars_app, Hrate, scalars_step_entries_rate, Hlosses, Hlast.
      cbn [scalars tag String.eqb Ascii.eqb Bool.eqb andb]. rewrite app_nil_r.
      destruct (Z.leb_spec 0 s); destruct (Z.ltb_spec s (Z.of_nat (k * n)));
        destruct (Z.leb_spec (Z.of_nat k * Z.of_nat n) s);
        destruct (Z.ltb_spec s (Z.of_nat k * Z.of_nat n + Z.of_nat n));
        destruct (Z.ltb_spec s (Z.of_nat (S k * n)));
        cbn [andb app]; try done; try nia.
      do 2 f_equal. nia.
    + intros s.
      rewrite !scalars_app, !length_app, Hstep, length_scalars_step_entries, Hlosses.
      cbn [scalars tag String.eqb Ascii.eqb Bool.eqb andb length].
      destruct (Z.leb_spec 0 s); destruct (Z.ltb_spec s (Z.of_nat (k * n)));
        destruct (Z.leb_spec (Z.of_nat k * Z.of_nat n) s);
        destruct (Z.ltb_spec s (Z.of_nat k * Z.of_nat n + Z.of_nat n));
        destruct (Z.ltb_spec s (Z.of_nat (S k * n)));
        cbn [andb]; try done; try nia.
    + intros e.
      rewrite !scalars_app, !length_app, Htrain.
      rewrite scalars_step_entries_other by done.
      rewrite scalars_epoch_tail_train.
      destruct (Z.leb_spec 0 e); destruct (Z.ltb_spec e (Z.of_nat k));
        destruct (Z.eqb_spec (Z.of_nat k) e);
        destruct (Z.ltb_spec e (Z.of_nat (S k)));
        cbn [andb length]; try done; try lia.
    + intros e.
      rewrite !scalars_app, !length_app, Hval.
      rewrite scalars_step_entries_other by done.
      rewrite scalars_epoch_tail_val.
      destruct (Z.leb_spec 0 e); destruct (Z.ltb_spec e (Z.of_nat k));
        destruct (Z.eqb_spec (Z.of_nat k) e);
        destruct (Z.ltb_spec e (Z.of_nat (S k)));
        cbn [andb length]; try done; try lia.
Qed.
End EpochLog.

Section TrainExtras.
Context `{Text} `{Torch}.
Variable args : Args.

(** The run as a whole: the log's shape beside the invariant. *)
Lemma train_log (corpus : list string) (tokenizer : Tokenizer) (m : Model)
    (ds : GutenbergPoetryDataset) :
  GutenbergPoetryDataset_init (seq_len args) tokenizer corpus = Ok ds ->
  (0 < dl_len (train_loader args ds))%nat ->
  (0 < dl_len (val_loader args ds))%nat ->
  exists st,
    train args corpus tokenizer m = Ok st /\
    applied st
    = map (fun j : nat =>
             scheduler_lr args (max_steps_of args (train_loader args ds)) (Z.of_nat j))
          (seq 0 (Z.to_nat (epochs args) * dl_len (train_loader args ds))) /\
    length (writer st)
    = (Z.to_nat (epochs args) * (2 * dl_len (train_loader args ds) + 2))%nat /\
    Forall (fun sc =>
              tag sc ∈ ["Loss/train_step"; "Learning_rate";
                        "Loss/train_epoch"; "Loss/validation"]) (writer st) /\
    (forall s,
       scalars "Learning_rate" s (writer st)
       = if (0 <=? s)
            && (s <? Z.of_nat (Z.to_nat (epochs args) * dl_len (train_loader args ds)))
         then [scheduler_lr args (max_steps_of args (train_loader args ds)) (s + 1)]
         else []) /\
    (forall s,
       length (scalars "Loss/train_step" s (writer st))
       = if (0 <=? s)
            && (s <? Z.of_nat (Z.to_nat (epochs args) * dl_len (train_loader args ds)))
         then 1%nat else 0%nat) /\
    (forall e,
       length (scalars "Loss/train_epoch" e (writer st))
       = if (0 <=? e) && (e <? Z.of_nat (Z.to_nat (epochs args)))
         then 1%nat else 0%nat) /\
    (forall e,
       length (scalars "Loss/validation" e (writer st))
       = if (0 <=? e) && (e <? Z.of_nat (Z.to_nat (epochs args)))
         then 1%nat else 0%nat).
Proof.
  intros Hds Hn Hnv.
  destruct (train_inv args corpus tokenizer m ds Hds Hn Hnv)
    as (st & Hrun & _ & _ & Happ & _).
  exists st. split; [exact Hrun|]. split; [exact Happ|].
  rewrite (train_unfold args _ _ _ ds Hds), epoch_loop_to_nat in Hrun.
  destruct (epoch_loop_log args (train_loader args ds) (val_loader args ds)
              (max_steps_of args (train_loader args ds))
              (scheduler_init args m (max_steps_of args (train_loader args ds)))
              Hn Hnv ltac:(by cbn) (Z.to_nat (epochs args)))
    as (st' & Hrun' & Hshape).
  rewrite Hrun in Hrun'. injection Hrun' as <-. exact Hshape.
Qed.

(** In range of the run: [0 <= s < max_steps]. *)
Lemma in_run_iff (n : nat) (E s : Z) :
  (0 <=? s) && (s <? Z.of_nat (Z.to_nat E * n))
  = (0 <=? s) && (s <? Z.of_nat n * E).
Proof.
  destruct (Z.leb_spec 0 s); cbn [andb]; [|done].
  destruct (Z.ltb_spec s (Z.of_nat (Z.to_nat E * n)));
    destruct (Z.ltb_spec s (Z.of_nat n * E)); try done; nia.
Qed.

(** X1. A run takes exactly [max_steps = len(train_dataloader) * epochs]
    optimizer steps, and step [j] (counted from 0) runs at the learning
    rate [lr * cosine_lr_schedule(j, max_steps)]. *)
Theorem optimizer_steps (corpus : list string) (tokenizer : Tokenizer)
    (m : Model) (ds : GutenbergPoetryDataset) :
  GutenbergPoetryDataset_init (seq_len args) tokenizer corpus = Ok ds ->
  (0 < dl_len (train_loader args ds))%nat ->
  (0 < dl_len (val_loader args ds))%nat ->
  exists st,
    train args corpus tokenizer m = Ok st /\
    Py.len (applied st) = Z.max 0 (max_steps_of args (train_loader args ds)) /\
    forall j, 0 <= j < max_steps_of args (train_loader args ds) ->
      applied st !! Z.to_nat j
      = Some (lr args
              * cosine_lr_schedule args j
                  (max_steps_of args (train_loader args ds)))%R.
Proof.
  intros Hds Hn Hnv.
  destruct (train_log corpus tokenizer m ds Hds Hn Hnv) as (st & Hrun & Happ & _).
  exists st. split; [exact Hrun|]. rewrite Happ. unfold max_steps_of. split.
  - unfold Py.len. rewrite length_map, length_seq. nia.
  - intros j Hj. rewrite list_lookup_fmap, lookup_seq_lt by nia.
    cbn. by rewrite Z2Nat.id by lia.
Qed.



(** X4. The log of a run holds [2 * len(train_dataloader) + 2] scalars per
    epoch, under the four tags of the script and no other: exactly one
    ["Loss/train_step"] value for each global step [0 <= s < max_steps]
    and none for any other step, exactly one ["Loss/train_epoch"] and one
    ["Loss/validation"] value for each epoch [0 <= e < epochs] and none
    for any other. *)
Theorem log_shape (corpus : list string) (tokenizer : Tokenizer)
    (m : Model) (ds : GutenbergPoetryDataset) :
  GutenbergPoetryDataset_init (seq_len args) tokenizer corpus = Ok ds ->
  (0 < dl_len (train_loader args ds))%nat ->
  (0 < dl_len (val_loader args ds))%nat ->
  exists st,
    train args corpus tokenizer m = Ok st /\
    Py.len (writer st)
    = Z.max 0 (epochs args) * (2 * Z.of_nat (dl_len (train_loader args ds)) + 2) /\
    Forall (fun sc =>
              tag sc ∈ ["Loss/train_step"; "Learning_rate";
                        "Loss/train_epoch"; "Loss/validation"]) (writer st) /\
    (forall s,
       Py.len (scalars "Loss/train_step" s (writer st))
       = if (0 <=? s) && (s <? max_steps_of args (train_loader args ds))
         then 1 else 0) /\
    (forall e,
       Py.len (scalars "Loss/train_epoch" e (writer st))
       = if (0 <=? e) && (e <? epochs args) then 1 else 0) /\
    (forall e,
       Py.len (scalars "Loss/validation" e (writer st))
       = if (0 <=? e) && (e <? epochs args) then 1 else 0).
Proof.
  intros Hds Hn Hnv.
  destruct (train_log corpus tokenizer m ds Hds Hn Hnv)
    as (st & Hrun & _ & Hlen & Htags & _ & Hstep & Htrain & Hval).
  exists st. split; [exact Hrun|].
  assert (forall e,
            (0 <=? e) && (e <? Z.of_nat (Z.to_nat (epochs args)))
            = (0 <=? e) && (e <? epochs args)) as Hin.
  { intros e. destruct (Z.leb_spec 0 e); cbn [andb]; [|done].
    destruct (Z.ltb_spec e (Z.of_nat (Z.to_nat (epochs args))));
      destruct (Z.ltb_spec e (epochs args)); try done; lia. }
  split; [|split; [exact Htags|split; [|split]]].
  - unfold Py.len. rewrite Hlen. nia.
  - intros s. unfold Py.len. rewrite Hstep, in_run_iff. unfold max_steps_of.
    by destruct ((0 <=? s) && (s <? Z.of_nat (dl_len (train_loader args ds)) * epochs args)).
  - intros e. unfold Py.len. rewrite Htrain, Hin.
    by destruct ((0 <=? e) && (e <? epochs args)).
  - intros e. unfold Py.len. rewrite Hval, Hin.
    by destruct ((0 <=? e) && (e <? epochs args)).
Qed.

End TrainExtras.

(** ** The extras on the small environment *)

Lemma demo_max_steps (ds : GutenbergPoetryDataset) :
  dl_len (train_loader Demo.args ds) = 16%nat ->
  max_steps_of Demo.args (train_loader Demo.args ds) = 16.
Proof. intros Hn. unfold max_steps_of. rewrite Hn. reflexivity. Qed.

Lemma optimizer_steps_witness :
  exists st,
    train Demo.args Demo.corpus Demo.byte_tokenizer 0%R = Ok st /\
    Py.len (applied st) = 16 /\
    applied st !! 3%nat = Some (0.002 * cosine_lr_schedule Demo.args 3 16)%R.
Proof.
  destruct demo_dataset as (ds & Hds & Hn & Hnv).
  destruct (@optimizer_steps Demo.text Demo.torch Demo.args Demo.corpus
              Demo.byte_tokenizer 0%R ds Hds) as (st & Hrun & Hlen & Hrates);
    [rewrite Hn; lia | rewrite Hnv; lia |].
  rewrite (demo_max_steps ds Hn) in Hlen, Hrates.
  exists st. split; [exact Hrun|]. split; [exact Hlen|].
  apply (Hrates 3). lia.
Defined.



Lemma log_shape_witness :
  exists st,
    train Demo.args Demo.corpus Demo.byte_tokenizer 0%R = Ok st /\
    Py.len (writer st) = 34.
Proof.
  destruct demo_dataset as (ds & Hds & Hn & Hnv).
  destruct (@log_shape Demo.text Demo.torch Demo.args Demo.corpus
              Demo.byte_tokenizer 0%R ds Hds) as (st & Hrun & Hlen & _);
    [rewrite Hn; lia | rewrite Hnv; lia |].
  rewrite Hn in Hlen.
  exists st. split; [exact Hrun | exact Hlen].
Defined.


(** X15. [parse_args] admits a model type only from
    [choices = ["transformer"]]: on arguments it has accepted, [main]
    always builds the model and calls [train], and the [ValueError] of its
    [else] branch cannot be raised. *)
Theorem model_type_choices_guard `{Text} `{Torch} (a a' : Args) (corpus : list string) :
  (check_model_type a = Some a' <-> a' = a /\ model_type a = "transformer") /\
  (check_model_type a = Some a' ->
   main a' corpus
   = train a' corpus Tokenizer_new
       (Transformer (seq_len a') (vocab_size Tokenizer_new) (device a')) /\
   main a' corpus <> Raise (unsupported a')).
Proof.
  assert (check_model_type a = Some a' <-> a' = a /\ model_type a = "transformer")
    as Hiff.
  { unfold check_model_type, model_type_choices. cbn [existsb].
    rewrite orb_false_r.
    destruct (String.eqb_spec (model_type a) "transformer") as [Heq|Hne].
    - split; [by intros [= <-] | by intros [-> _]].
    - split; [done | by intros [_ ?]]. }
  split; [exact Hiff|].
  intros Hok. apply Hiff in Hok as [-> Hmt].
  split; [by apply main_transformer | by apply main_transformer_supported].
Qed.
